(** * A media gallery served from a directory: listing and upload

    Shallow embedding of [hackathon backend/app.py], a Flask application with
    three routes: [GET /] (the gallery page), [POST /upload] and
    [GET /api/videos] (the JSON listing).

    Conventions of the model.
    - A Python [str] is a Rocq [string] holding the UTF-8 bytes of the text.
      Every operation the application performs on file names ('.' in s,
      rsplit, lower, comparison with the ASCII whitelist, ordering) gives
      the same answer on UTF-8 bytes as on code points: UTF-8 keeps the
      code point order, the bytes of a character outside ASCII are all above
      127, and no such character lowercases to a letter of a whitelisted
      word.
    - The platform is POSIX ([os.sep] is "/", there is no [os.path.altsep]).
    - The file system is the tree under the working directory: regular
      files and directories, directories holding both. What a call of [os]
      answers follows from the tree where the tree decides it (a missing
      entry, a regular file where a directory is needed, a directory where
      a file is written). What the operating system decides beyond that
      when the application writes (a full disk, a denied permission) and
      the random bytes read by [uuid.uuid4] are inputs of the upload view.
      Permissions are not part of the tree: the scan is modelled on
      directories that can be read.
    - An exception that no view catches is answered by Flask with status
      500. *)

From Stdlib Require Import Ascii String NArith Lia.
From stdpp Require Import base option list sorting gmap strings.

(** ** Python string operations used by the application *)

Module Py.

(** [c in s] for a one-character [c]. *)
Fixpoint contains (c : ascii) (s : string) : bool :=
  match s with
  | EmptyString => false
  | String a s' => if Ascii.eqb a c then true else contains c s'
  end.

(** The split point of [s.rsplit(c, 1)]: the text before and after the last
    occurrence of [c], when there is one. *)
Fixpoint rpartition (c : ascii) (s : string) : option (string * string) :=
  match s with
  | EmptyString => None
  | String a s' =>
      match rpartition c s' with
      | Some (h, t) => Some (String a h, t)
      | None => if Ascii.eqb a c then Some (EmptyString, s') else None
      end
  end.

(** [s.rsplit(c, 1)]: a list of two strings when [c] occurs in [s], the list
    [[s]] otherwise. *)
Definition rsplit1 (c : ascii) (s : string) : list string :=
  match rpartition c s with
  | Some (h, t) => [h; t]
  | None => [s]
  end.

Definition is_upper (a : ascii) : bool :=
  (65 <=? nat_of_ascii a)%nat && (nat_of_ascii a <=? 90)%nat.

Definition lower_char (a : ascii) : ascii :=
  if is_upper a then ascii_of_nat (nat_of_ascii a + 32) else a.

(** [s.lower()] *)
Fixpoint lower (s : string) : string :=
  match s with
  | EmptyString => EmptyString
  | String a s' => String (lower_char a) (lower s')
  end.

(** [s.startswith(c)] and [s.endswith(c)] for a one-character [c]. *)
Definition startswith (c : ascii) (s : string) : bool :=
  match s with
  | String a _ => Ascii.eqb a c
  | EmptyString => false
  end.

Definition endswith (c : ascii) (s : string) : bool :=
  startswith c (String.rev s).

(** [all(p(a) for a in s)] *)
Fixpoint all (p : ascii → bool) (s : string) : bool :=
  match s with
  | EmptyString => true
  | String a s' => p a && all p s'
  end.

(** [sorted(l)] on strings: ascending in the lexicographic order of
    [String.compare]. *)
Definition sorted (l : list string) : list string := merge_sort String.le l.

End Py.

(** ** Configuration (lines 11-19) *)

(** [os.path.join(a, b)] of [posixpath]:
    [[
    if b.startswith(sep): path = b
    elif not path or path.endswith(sep): path += b
    else: path += sep + b
    ]] *)
Definition path_join (a b : string) : string :=
  if Py.startswith "/" b then b
  else if String.eqb a "" || Py.endswith "/" a then a +:+ b
  else a +:+ "/" +:+ b.

Definition VIDEO_DIR : string := path_join "static" "videos".
Definition UPLOAD_FOLDER : string := path_join "static" "videos".

Definition ALLOWED_EXTENSIONS : gset string :=
  {[ "mp4"; "avi"; "mov"; "wmv"; "flv"; "webm"; "jpg"; "jpeg"; "png"; "gif" ]}.

Definition MAX_CONTENT_LENGTH : N := 100 * 1024 * 1024.

(** ** [allowed_file] (lines 21-22) *)

(** The indexing [rsplit(...)[1]] raises [IndexError] on a one-element list;
    the conjunction evaluates it only when '.' occurs in the name, where the
    list has two elements (lemma [rsplit1_contains]), so the [None] branch
    is never taken. *)
Definition allowed_file (filename : string) : bool :=
  Py.contains "."%char filename &&
  match Py.rsplit1 "."%char filename !! 1%nat with
  | Some ext => bool_decide (Py.lower ext ∈ ALLOWED_EXTENSIONS)
  | None => false
  end.

(** ** [werkzeug.utils.secure_filename]

    [[
    filename = unicodedata.normalize("NFKD", filename)
    filename = filename.encode("ascii", "ignore").decode("ascii")
    for sep in os.sep, os.path.altsep:
        if sep: filename = filename.replace(sep, " ")
    filename = str(_filename_ascii_strip_re.sub(
        "", "_".join(filename.split()))).strip("._")
    ]]
    with [_filename_ascii_strip_re = re.compile(r"[^A-Za-z0-9_.-]")]. The
    Windows device-name step does not apply on POSIX. The Unicode tables of
    the first two lines are not part of the model: their composition is the
    parameter [nfkd_ascii]. *)

Module Werkzeug.

(** [str.isspace] on an ASCII character. *)
Definition is_space (a : ascii) : bool :=
  let n := nat_of_ascii a in
  ((9 <=? n)%nat && (n <=? 13)%nat) || ((28 <=? n)%nat && (n <=? 32)%nat).

Definition is_lower (a : ascii) : bool :=
  (97 <=? nat_of_ascii a)%nat && (nat_of_ascii a <=? 122)%nat.

Definition is_digit (a : ascii) : bool :=
  (48 <=? nat_of_ascii a)%nat && (nat_of_ascii a <=? 57)%nat.

(** The characters kept by [_filename_ascii_strip_re]. *)
Definition is_safe (a : ascii) : bool :=
  Py.is_upper a || is_lower a || is_digit a ||
  Ascii.eqb a "_" || Ascii.eqb a "." || Ascii.eqb a "-".

(** [s.replace(c, d)] for one-character [c] and [d]. *)
Fixpoint replace (c d : ascii) (s : string) : string :=
  match s with
  | EmptyString => EmptyString
  | String a s' => String (if Ascii.eqb a c then d else a) (replace c d s')
  end.

(** [s.split()]: the maximal runs of non-space characters. *)
Fixpoint split (s : string) : list string :=
  match s with
  | EmptyString => []
  | String a s' =>
      if is_space a then split s'
      else
        match s' with
        | EmptyString => [String a EmptyString]
        | String b _ =>
            if is_space b then String a EmptyString :: split s'
            else
              match split s' with
              | w :: ws => String a w :: ws
              | [] => [String a EmptyString]
              end
        end
  end.

(** [re.sub(pattern, "", s)] for a pattern that is one negated character
    class: the characters of the class are kept. *)
Fixpoint keep (p : ascii → bool) (s : string) : string :=
  match s with
  | EmptyString => EmptyString
  | String a s' => if p a then String a (keep p s') else keep p s'
  end.

Fixpoint lstrip (p : ascii → bool) (s : string) : string :=
  match s with
  | EmptyString => EmptyString
  | String a s' => if p a then lstrip p s' else s
  end.

Definition rstrip (p : ascii → bool) (s : string) : string :=
  String.rev (lstrip p (String.rev s)).

(** [s.strip(chars)], [p] deciding membership in [chars]. *)
Definition strip (p : ascii → bool) (s : string) : string :=
  rstrip p (lstrip p s).

Definition dot_or_underscore (a : ascii) : bool :=
  Ascii.eqb a "." || Ascii.eqb a "_".

Definition secure_filename (nfkd_ascii : string → string)
    (filename : string) : string :=
  let filename := nfkd_ascii filename in
  let filename := replace "/" " " filename in
  strip dot_or_underscore
    (keep is_safe (String.concat "_" (split filename))).

End Werkzeug.

(** ** [uuid.uuid4]

    [UUID(bytes=os.urandom(16), version=4)], then [str]: the 16 random bytes
    read as a big-endian integer, the variant bits set to RFC 4122 and the
    version to 4, printed as 32 lowercase hex digits in groups of
    8-4-4-4-12. The argument [r] is the integer value of the random bytes;
    sixteen bytes hold a value below [2^128]. *)

Module Uuid.

Definition hex_digit (n : N) : ascii :=
  match String.get (N.to_nat n) "0123456789abcdef" with
  | Some a => a
  | None => "0"
  end.

(** ['%0<digits>x' % v], for [v] below [16^digits]. *)
Fixpoint hex (digits : nat) (v : N) : string :=
  match digits with
  | O => EmptyString
  | S d => hex d (v / 16) +:+ String (hex_digit (v mod 16)) EmptyString
  end.

Definition uuid_int (r : N) : N :=
  let i := (r mod 2 ^ 128)%N in
  let i := N.ldiff i (N.shiftl 0xc000 48) in
  let i := N.lor i (N.shiftl 0x8000 48) in
  let i := N.ldiff i (N.shiftl 0xf000 64) in
  N.lor i (N.shiftl 4 76).

Definition str (i : N) : string :=
  let h := hex 32 i in
  String.substring 0 8 h +:+ "-" +:+ String.substring 8 4 h +:+ "-" +:+
  String.substring 12 4 h +:+ "-" +:+ String.substring 16 4 h +:+ "-" +:+
  String.substring 20 12 h.

Definition uuid4 (r : N) : string := str (uuid_int r).

End Uuid.

(** ** The file system and the [os] calls made by the application *)

Module Os.

(** [s.split(c)] for a one-character separator. *)
Fixpoint split_sep (c : ascii) (s : string) : list string :=
  match s with
  | EmptyString => [EmptyString]
  | String a s' =>
      if Ascii.eqb a c then EmptyString :: split_sep c s'
      else
        match split_sep c s' with
        | w :: ws => String a w :: ws
        | [] => [String a EmptyString]
        end
  end.

(** Path resolution, one component at a time, on a stack of the components
    walked so far (innermost first). An absolute path starts from the root
    marker "/"; ".." at the root stays there, and ".." above the working
    directory of a relative path is kept. *)
Definition walk (stack : list string) (comp : string) : list string :=
  if bool_decide (comp = "" ∨ comp = ".") then stack
  else if bool_decide (comp = "..") then
    match stack with
    | [] => [".."]
    | top :: rest =>
        if bool_decide (top = "..") then ".." :: stack
        else if bool_decide (top = "/") then stack
        else rest
    end
  else comp :: stack.

(** The location a path string names, as the list of its components. *)
Definition resolve (p : string) : list string :=
  let root := if Py.startswith "/" p then ["/"] else [] in
  reverse (foldl walk root (split_sep "/" p)).

(** A node of the tree: a regular file with its bytes, or a directory with
    its entries by name. *)
#[warnings="-register-all"]
Inductive node :=
  | File (data : list Byte.byte)
  | Dir (children : gmap string node).

(** The entries of the working directory, and the regular files of a
    directory. *)
Abbreviation filesystem := (gmap string node).
Abbreviation directory := (gmap string (list Byte.byte)).

Definition file_data (n : node) : option (list Byte.byte) :=
  match n with
  | File data => Some data
  | Dir _ => None
  end.

(** What the system finds at a location: a node; nothing, where an entry
    on the way is missing ([ENOENT]); or no way through, where an entry
    before the last is a regular file ([ENOTDIR]). *)
Inductive located :=
  | Found (n : node)
  | Missing
  | Blocked.

Fixpoint locate (fs : filesystem) (p : list string) : located :=
  match p with
  | [] => Found (Dir fs)
  | c :: p' =>
      match fs !! c with
      | None => Missing
      | Some (File data) =>
          match p' with
          | [] => Found (File data)
          | _ :: _ => Blocked
          end
      | Some (Dir children) => locate children p'
      end
  end.

(** The entries of the directory at a location, when there is one. *)
Definition dir_at (fs : filesystem) (p : list string) : option filesystem :=
  match locate fs p with
  | Found (Dir children) => Some children
  | _ => None
  end.

(** The regular files of the directory at a location; none when there is
    no directory there. *)
Definition files_in (fs : filesystem) (d : list string) : directory :=
  match dir_at fs d with
  | Some children => omap file_data children
  | None => ∅
  end.

(** The tree with the entries of the directory at [p] changed by [f]. *)
Fixpoint alter_dir (f : filesystem → filesystem) (fs : filesystem)
    (p : list string) : filesystem :=
  match p with
  | [] => f fs
  | c :: p' =>
      match fs !! c with
      | Some (Dir children) => <[c := Dir (alter_dir f children p')]> fs
      | _ => fs
      end
  end.

(** Exceptions of the calls. *)
Inductive exn :=
  | FileNotFoundError (path : string)
  | NotADirectoryError (path : string)
  | IsADirectoryError (path : string)
  | FileExistsError (path : string)
  | OSError (strerror : string).

(** [str(e)] (the paths the application builds need no escaping in their
    [repr]). *)
Definition str_exn (e : exn) : string :=
  match e with
  | FileNotFoundError p => "[Errno 2] No such file or directory: '" +:+ p +:+ "'"
  | NotADirectoryError p => "[Errno 20] Not a directory: '" +:+ p +:+ "'"
  | IsADirectoryError p => "[Errno 21] Is a directory: '" +:+ p +:+ "'"
  | FileExistsError p => "[Errno 17] File exists: '" +:+ p +:+ "'"
  | OSError msg => msg
  end.

(** [os.listdir(path)]: the names of all entries of the directory, regular
    files and directories alike, in the order the system gives them. It
    raises [FileNotFoundError] where nothing is at the path and
    [NotADirectoryError] where the path, or an entry on the way, is a
    regular file. *)
Definition listdir (fs : filesystem) (path : string) : exn + list string :=
  match locate fs (resolve path) with
  | Found (Dir children) => inr (elements (dom children))
  | Found (File _) | Blocked => inl (NotADirectoryError path)
  | Missing => inl (FileNotFoundError path)
  end.

(** [os.makedirs(path, exist_ok=True)] along the components of the path: a
    directory that exists is entered, a missing one is created, unless the
    system refuses ([denied], the description of its refusal, met at the
    first directory that has to be created); a regular file on the way
    raises [NotADirectoryError], and at the end of the path
    [FileExistsError], which [exist_ok] silences for directories only. *)
Fixpoint mkdirs (denied : option string) (path : string) (fs : filesystem)
    (p : list string) : exn + filesystem :=
  match p with
  | [] => inr fs
  | c :: p' =>
      match fs !! c with
      | Some (Dir children) =>
          match mkdirs denied path children p' with
          | inr children' => inr (<[c := Dir children']> fs)
          | inl ex => inl ex
          end
      | Some (File _) =>
          match p' with
          | [] => inl (FileExistsError path)
          | _ :: _ => inl (NotADirectoryError path)
          end
      | None =>
          match denied with
          | Some msg => inl (OSError msg)
          | None =>
              match mkdirs denied path ∅ p' with
              | inr children' => inr (<[c := Dir children']> fs)
              | inl ex => inl ex
              end
          end
      end
  end.

Definition makedirs (denied : option string) (fs : filesystem)
    (path : string) : exn + filesystem :=
  mkdirs denied path fs (resolve path).

(** A failure of the device during a write: its description, and what it
    left at the destination ([None]: the file was not created). *)
Record fault := { strerror : string; residue : option (list Byte.byte) }.

(** [FileStorage.save(dst)]: [open(dst, "wb")] and a copy of the stream. A
    regular file at the destination is replaced. *)
Definition file_save (fs : filesystem) (dst : string) (data : list Byte.byte)
    (flt : option fault) : (exn + unit) * filesystem :=
  match reverse (resolve dst) with
  | [] =>
      (inl (if String.eqb dst "" then FileNotFoundError dst
            else IsADirectoryError dst), fs)
  | name :: rdir =>
      let dir := reverse rdir in
      match locate fs dir with
      | Missing => (inl (FileNotFoundError dst), fs)
      | Blocked | Found (File _) => (inl (NotADirectoryError dst), fs)
      | Found (Dir children) =>
          match children !! name with
          | Some (Dir _) => (inl (IsADirectoryError dst), fs)
          | _ =>
              match flt with
              | Some f =>
                  (inl (OSError (strerror f)),
                   match residue f with
                   | Some part => alter_dir (λ ch, <[name := File part]> ch) fs dir
                   | None => fs
                   end)
              | None =>
                  (inr tt, alter_dir (λ ch, <[name := File data]> ch) fs dir)
              end
          end
      end
  end.

End Os.

Export Os (filesystem, directory).

(** ** Requests and responses *)

#[warnings="-register-all"]
Inductive json :=
  | JBool (b : bool)
  | JString (s : string)
  | JArray (l : list json)
  | JObject (fields : list (string * json)).

Inductive body :=
  | Json (j : json)
  | Text (s : string).

Record response := { status : nat; payload : body }.

(** [flask.jsonify]: a JSON body with status 200. The payload is the value
    handed to [jsonify], its fields listed as the source writes them; the
    text Flask prints for it, in which the keys of an object are sorted by
    default, is not modelled, and no statement below depends on the order
    of the fields beyond repeating the source's. *)
Definition jsonify (fields : list (string * json)) : response :=
  {| status := 200; payload := Json (JObject fields) |}.

Fixpoint assoc (key : string) (fields : list (string * json)) : option json :=
  match fields with
  | [] => None
  | (k, v) :: rest => if String.eqb k key then Some v else assoc key rest
  end.

(** A field of a JSON response. *)
Definition field (key : string) (r : response) : option json :=
  match payload r with
  | Json (JObject fields) => assoc key fields
  | _ => None
  end.

(** An uploaded part: [werkzeug.datastructures.FileStorage]. *)
Record FileStorage := { filename : string; stream : list Byte.byte }.


(** What a call of [upload_file] takes from its environment: the random
    bytes read by [uuid.uuid4]; the device fault met by the write, if any;
    and the refusal met by [os.makedirs] where it has a directory to
    create, if any. *)
Record env := {
  urandom : N;
  fault : option Os.fault;
  mkdir_fault : option string
}.

(** The answer of Flask to an exception that no view catches. *)
Definition internal_server_error : response :=
  {| status := 500; payload := Text "Internal Server Error" |}.

(** [bool(file)]: a [FileStorage] is true when its filename is not empty. *)
Definition FileStorage_bool (file : FileStorage) : bool :=
  negb (String.eqb (filename file) "").

(** A request as the upload route sees it: the size of its body and the
    file parts of its multipart form, by field name. *)
Record request := {
  content_length : N;
  files : gmap string FileStorage
}.


(** ** The views (lines 24-92) *)

Section Views.

(** Code outside the repository that the views call and that the model
    leaves open: the Unicode step of [secure_filename], Flask's URL
    builder and the template engine. *)
Variable nfkd_ascii : string → string.
Variable url_for : string → string → string.
Variable render_template : string → list string → string.

Definition secure_filename : string → string :=
  Werkzeug.secure_filename nfkd_ascii.

(** [GET /]: the response and the lines printed on the console. The
    [except] clause catches [FileNotFoundError] only. *)
Definition index (fs : filesystem) : response * list string :=
  match Os.listdir fs VIDEO_DIR with
  | inr entries =>
      let video_files := Py.sorted (filter (λ f, allowed_file f) entries) in
      let video_urls :=
        (λ filename, url_for "static" ("videos/" +:+ filename)) <$> video_files in
      ({| status := 200;
          payload := Text (render_template "index.html" video_urls) |}, [])
  | inl (Os.FileNotFoundError _) =>
      ({| status := 500;
          payload := Text "Error: Video directory not found. Please create it and add videos." |},
       ["Error: The directory '" +:+ VIDEO_DIR +:+ "' was not found."])
  | inl _ => (internal_server_error, [])
  end.

(** [POST /upload], on the parsed [request.files]. [os.makedirs] is called
    outside the [try] block: what it raises is not caught. *)
Definition upload_file (request_files : gmap string FileStorage) (e : env)
    (fs : filesystem) : response * filesystem :=
  match request_files !! "file" with
  | None =>
      (jsonify [("success", JBool false); ("message", JString "No file selected")], fs)
  | Some file =>
      if String.eqb (filename file) "" then
        (jsonify [("success", JBool false); ("message", JString "No file selected")], fs)
      else if FileStorage_bool file && allowed_file (filename file) then
        let original_filename := secure_filename (filename file) in
        let filename := Uuid.uuid4 (urandom e) +:+ "_" +:+ original_filename in
        let file_path := path_join UPLOAD_FOLDER filename in
        match Os.makedirs (mkdir_fault e) fs UPLOAD_FOLDER with
        | inl _ => (internal_server_error, fs)
        | inr fs =>
            match Os.file_save fs file_path (stream file) (fault e) with
            | (inr _, fs) =>
                (jsonify [("success", JBool true);
                          ("message", JString "File uploaded successfully!")], fs)
            | (inl ex, fs) =>
                (jsonify [("success", JBool false);
                          ("message", JString ("Upload failed: " +:+ Os.str_exn ex))], fs)
            end
        end
      else
        (jsonify [("success", JBool false);
                  ("message", JString "Invalid file type. Please upload videos (mp4, avi, mov, etc.) or images (jpg, png, etc.)")], fs)
  end.

(** [GET /api/videos]. The [except] clause catches [FileNotFoundError]
    only. *)
Definition get_videos (fs : filesystem) : response :=
  match Os.listdir fs VIDEO_DIR with
  | inr entries =>
      let video_files := Py.sorted (filter (λ f, allowed_file f) entries) in
      let video_urls :=
        (λ filename, url_for "static" ("videos/" +:+ filename)) <$> video_files in
      jsonify [("videos", JArray (JString <$> video_urls))]
  | inl (Os.FileNotFoundError _) => jsonify [("videos", JArray [])]
  | inl _ => internal_server_error
  end.

(** *** The body size limit (line 19)

    Werkzeug compares the length of the body with [MAX_CONTENT_LENGTH]
    when the body is first read, and raises [RequestEntityTooLarge], which
    Flask answers with status 413. The upload view reads the body in its
    first expression, [request.files]; no other view reads it. *)
Definition request_entity_too_large : response :=
  {| status := 413; payload := Text "Request Entity Too Large" |}.

Definition parse_files (req : request) : option (gmap string FileStorage) :=
  if (MAX_CONTENT_LENGTH <? content_length req)%N then None
  else Some (files req).

Definition upload_route (req : request) (e : env) (fs : filesystem)
    : response * filesystem :=
  match parse_files req with
  | None => (request_entity_too_large, fs)
  | Some request_files => upload_file request_files e fs
  end.

End Views.

(** Instances of the open parts, for running the model: on names made of
    ASCII characters NFKD normalisation and ASCII encoding change nothing,
    and characters outside ASCII that have no decomposition are dropped; a
    static URL of unreserved characters is the endpoint and the file name
    under "/". *)
Definition ascii_ignore (s : string) : string :=
  Werkzeug.keep (λ a, (nat_of_ascii a <? 128)%nat) s.

Definition static_url (endpoint filename : string) : string :=
  "/" +:+ endpoint +:+ "/" +:+ filename.

Definition page (template : string) (video_sources : list string) : string :=
  template +:+ ":" +:+ String.concat "," video_sources.

(** The tree in which the media directory holds the given entries, and
    the media directory holding regular files of the given names. *)
Definition media_dir (children : filesystem) : filesystem :=
  {[ "static" := Os.Dir {[ "videos" := Os.Dir children ]} ]}.

Definition media (names : list string) : filesystem :=
  media_dir (list_to_map ((λ n, (n, Os.File [])) <$> names)).

Definition upload_of (name : string) : gmap string FileStorage :=
  {[ "file" := {| filename := name; stream := [] |} ]}.

(** ** The listing as the specification words it

    "the entries whose extension (case-insensitive) belongs to a fixed
    whitelist": the extension of a name is what follows its last dot. *)

Definition whitelist : list string :=
  ["mp4"; "avi"; "mov"; "wmv"; "flv"; "webm"; "jpg"; "jpeg"; "png"; "gif"].

Definition extension_of (name ext : string) : Prop :=
  ∃ stem, name = stem +:+ "." +:+ ext ∧ Py.contains "." ext = false.

Definition whitelisted (name : string) : Prop :=
  ∃ ext, extension_of name ext ∧ Py.lower ext ∈ whitelist.


(** The names in the media directory, of regular files and of directories;
    none when there is no such directory. *)
Definition entries (fs : filesystem) : gset string :=
  match Os.dir_at fs (Os.resolve VIDEO_DIR) with
  | Some children => dom children
  | None => ∅
  end.

(** The names both listing views compute before they build the URLs. *)
Definition listed (fs : filesystem) : list string :=
  match Os.listdir fs VIDEO_DIR with
  | inr names => Py.sorted (filter (λ f, allowed_file f) names)
  | inl _ => []
  end.

(** The JSON bodies of the upload view, by name. *)
Definition no_file_selected : response :=
  jsonify [("success", JBool false); ("message", JString "No file selected")].

Definition invalid_file_type : response :=
  jsonify [("success", JBool false);
           ("message", JString "Invalid file type. Please upload videos (mp4, avi, mov, etc.) or images (jpg, png, etc.)")].

Definition uploaded : response :=
  jsonify [("success", JBool true); ("message", JString "File uploaded successfully!")].

Definition upload_failed (cause : string) : response :=
  jsonify [("success", JBool false);
           ("message", JString ("Upload failed: " +:+ cause))].

(** The name under which an accepted upload is saved (line 68), and the
    path handed to [file.save] (line 69). *)
Definition stored_filename (nfkd_ascii : string → string) (e : env)
    (file : FileStorage) : string :=
  Uuid.uuid4 (urandom e) +:+ "_" +:+ secure_filename nfkd_ascii (filename file).

Definition file_path (nfkd_ascii : string → string) (e : env)
    (file : FileStorage) : string :=
  path_join UPLOAD_FOLDER (stored_filename nfkd_ascii e file).

(** An upload is accepted when the form has a "file" part with a non-empty
    name that passes the extension check (lines 57-65). *)
Definition accepted (request_files : gmap string FileStorage)
    (file : FileStorage) : Prop :=
  request_files !! "file" = Some file ∧ filename file ≠ "" ∧
  allowed_file (filename file) = true.

(** The tree after a write of [data] under [name] in the upload folder. *)
Definition store (fs : filesystem) (name : string) (data : list Byte.byte)
    : filesystem :=
  Os.alter_dir (λ ch, <[name := Os.File data]> ch) fs (Os.resolve UPLOAD_FOLDER).

(** The entries of the upload folder, none when it is not there. *)
Definition folder (fs : filesystem) : filesystem :=
  default ∅ (Os.dir_at fs (Os.resolve UPLOAD_FOLDER)).

(** No directory of the upload folder has the given name. *)
Definition name_free (fs : filesystem) (name : string) : Prop :=
  ∀ ch : filesystem, folder fs !! name ≠ Some (Os.Dir ch).

(** The ways an accepted upload ends (lines 66-78), as the answer and the
    tree it leaves: [os.makedirs] raises; the destination is a directory;
    the device fails and leaves nothing, or leaves something; the stream
    is written. *)
Inductive upload_effect (e : env) (fs : filesystem) (name : string)
    (data : list Byte.byte) : response → filesystem → Prop :=
  | effect_raise ex :
      Os.makedirs (mkdir_fault e) fs UPLOAD_FOLDER = inl ex →
      upload_effect e fs name data internal_server_error fs
  | effect_taken fs1 msg :
      Os.makedirs (mkdir_fault e) fs UPLOAD_FOLDER = inr fs1 →
      ¬ name_free fs name →
      upload_effect e fs name data (upload_failed msg) fs1
  | effect_fault fs1 f :
      Os.makedirs (mkdir_fault e) fs UPLOAD_FOLDER = inr fs1 →
      name_free fs name →
      fault e = Some f → Os.residue f = None →
      upload_effect e fs name data (upload_failed (Os.strerror f)) fs1
  | effect_residue fs1 f part :
      Os.makedirs (mkdir_fault e) fs UPLOAD_FOLDER = inr fs1 →
      name_free fs name →
      fault e = Some f → Os.residue f = Some part →
      upload_effect e fs name data (upload_failed (Os.strerror f))
        (store fs1 name part)
  | effect_stored fs1 :
      Os.makedirs (mkdir_fault e) fs UPLOAD_FOLDER = inr fs1 →
      name_free fs name →
      fault e = None →
      upload_effect e fs name data uploaded (store fs1 name data).

(** The bits of the random draw that [uuid4] keeps: all but the four of
    the version and the two of the variant. *)
Definition fixed_bits : N := N.lor (N.shiftl 0xf000 64) (N.shiftl 0xc000 48).

Definition random_bits (r : N) : N := N.ldiff (r mod 2 ^ 128) fixed_bits.

(** The characters of a token, and the value of a hex digit. *)
Definition is_hex (a : ascii) : bool :=
  Werkzeug.is_digit a ||
  ((97 <=? nat_of_ascii a)%nat && (nat_of_ascii a <=? 102)%nat).

Definition is_hex_or_dash (a : ascii) : bool := is_hex a || Ascii.eqb a "-".

Definition hex_value (a : ascii) : N :=
  if Werkzeug.is_digit a then N.of_nat (nat_of_ascii a - 48)
  else N.of_nat (nat_of_ascii a - 87).

(** * Properties *)

(** ** Strings *)

Lemma app_cons a s t : String a s +:+ t = String a (s +:+ t).
Proof. reflexivity. Qed.

Lemma app_nil_l s : "" +:+ s = s.
Proof. reflexivity. Qed.

Lemma app_nil_r s : s +:+ "" = s.
Proof. induction s as [|a s IH]; [done|]. by rewrite app_cons, IH. Qed.

Lemma app_assoc' s t u : (s +:+ t) +:+ u = s +:+ t +:+ u.
Proof. induction s as [|a s IH]; [done|]. by rewrite !app_cons, IH. Qed.

Lemma app_length s t : String.length (s +:+ t) = String.length s + String.length t.
Proof. induction s as [|a s IH]; [done|]. rewrite app_cons. simpl. by rewrite IH. Qed.

(** Two concatenations with heads of the same length agree part by part. *)
Lemma app_inj_length s1 s2 t1 t2 :
  String.length s1 = String.length s2 →
  s1 +:+ t1 = s2 +:+ t2 → s1 = s2 ∧ t1 = t2.
Proof.
  revert s2. induction s1 as [|a s1 IH]; intros [|b s2] Hlen Heq;
    try discriminate Hlen.
  - done.
  - rewrite !app_cons in Heq. injection Hlen as Hlen. injection Heq as -> Heq.
    by destruct (IH s2 Hlen Heq) as [-> ->].
Qed.

Lemma contains_app c s t :
  Py.contains c (s +:+ t) = Py.contains c s || Py.contains c t.
Proof.
  induction s as [|a s IH]; [done|].
  rewrite app_cons. simpl. by destruct (Ascii.eqb a c).
Qed.

Lemma rpartition_None c s :
  Py.rpartition c s = None ↔ Py.contains c s = false.
Proof.
  induction s as [|a s IH]; simpl; [done|].
  destruct (Py.rpartition c s) as [[h t]|].
  - destruct (Ascii.eqb a c); [done|]. split; [done|]. intros H.
    apply IH in H. done.
  - destruct (Ascii.eqb a c); [done|]. by rewrite <-IH.
Qed.

(** [rpartition] cuts at the last occurrence of the separator. *)
Lemma rpartition_Some c s h t :
  Py.rpartition c s = Some (h, t) ↔
  s = h +:+ String c t ∧ Py.contains c t = false.
Proof.
  revert h. induction s as [|a s IH]; intros h; simpl.
  - split; [done|]. intros [H _]. by destruct h.
  - destruct (Py.rpartition c s) as [[h' t']|] eqn:Hr.
    + split.
      * intros [= <- <-]. destruct (proj1 (IH h') eq_refl) as [-> Ht].
        by rewrite app_cons.
      * intros [Hs Ht]. destruct h as [|b h].
        { rewrite app_nil_l in Hs. simplify_eq.
          apply rpartition_None in Ht. congruence. }
        rewrite app_cons in Hs. simplify_eq.
        assert (Some (h', t') = Some (h, t)) as [= -> ->]; [|done].
        by apply IH.
    + apply rpartition_None in Hr. destruct (Ascii.eqb_spec a c) as [->|Hne].
      * split.
        { by intros [= <- <-]. }
        intros [Hs Ht]. destruct h as [|b h].
        { rewrite app_nil_l in Hs. by simplify_eq. }
        rewrite app_cons in Hs. simplify_eq.
        rewrite contains_app in Hr. simpl in Hr. rewrite Ascii.eqb_refl in Hr.
        by rewrite orb_true_r in Hr.
      * split; [done|]. intros [Hs Ht]. destruct h as [|b h].
        { rewrite app_nil_l in Hs. by simplify_eq. }
        rewrite app_cons in Hs. simplify_eq.
        rewrite contains_app in Hr. simpl in Hr. rewrite Ascii.eqb_refl in Hr.
        by rewrite orb_true_r in Hr.
Qed.

(** The index [1] taken by [allowed_file] is in range whenever it is
    evaluated. *)
Lemma rsplit1_contains c s :
  Py.contains c s = true → ∃ h t, Py.rsplit1 c s = [h; t].
Proof.
  intros H. unfold Py.rsplit1.
  destruct (Py.rpartition c s) as [[h t]|] eqn:Hr; [by eauto|].
  apply rpartition_None in Hr. congruence.
Qed.

Lemma elem_of_ALLOWED_EXTENSIONS ext :
  ext ∈ ALLOWED_EXTENSIONS ↔ ext ∈ whitelist.
Proof.
  unfold ALLOWED_EXTENSIONS, whitelist.
  rewrite !elem_of_union, !elem_of_singleton, !elem_of_cons, elem_of_nil.
  tauto.
Qed.

(** [allowed_file] decides the specification's notion. *)
Lemma allowed_file_whitelisted name :
  allowed_file name = true ↔ whitelisted name.
Proof.
  unfold allowed_file, whitelisted, extension_of, Py.rsplit1. split.
  - intros [Hc H]%andb_true_iff.
    destruct (Py.rpartition "." name) as [[h t]|] eqn:Hr; simpl in H; [|done].
    apply rpartition_Some in Hr as [-> Ht].
    apply bool_decide_eq_true, elem_of_ALLOWED_EXTENSIONS in H.
    exists t. split; [|done]. by exists h.
  - intros (ext & (stem & -> & Hext) & Hin).
    assert (Py.rpartition "." (stem +:+ "." +:+ ext) = Some (stem, ext)) as Hr.
    { by apply rpartition_Some. }
    rewrite Hr, contains_app. simpl. rewrite orb_true_r. simpl.
    by apply bool_decide_eq_true, elem_of_ALLOWED_EXTENSIONS.
Qed.

Lemma allowed_file_contains name :
  allowed_file name = true → Py.contains "." name = true.
Proof. unfold allowed_file. by intros [? _]%andb_true_iff. Qed.

(** ** The directory scan *)

Lemma sorted_Sorted l : Sorted String.le (Py.sorted l).
Proof. apply (Sorted_merge_sort String.le). Qed.

Lemma sorted_Permutation l : Py.sorted l ≡ₚ l.
Proof. apply (merge_sort_Permutation String.le). Qed.

(** The order in which the system lists the directory does not matter. *)
Lemma sorted_order_irrelevant l1 l2 :
  l1 ≡ₚ l2 → Py.sorted l1 = Py.sorted l2.
Proof.
  intros Hp. apply (Sorted_unique String.le); [apply sorted_Sorted..|].
  by rewrite !sorted_Permutation.
Qed.

(** X6. Whatever the order in which the system lists the entries, the
    views compute the same list: filtering and sorting two listings of the
    same names give equal results. *)
Lemma sorted_filter_any_order (names names' : list string) :
  names ≡ₚ names' →
  Py.sorted (filter (λ f, allowed_file f) names) =
  Py.sorted (filter (λ f, allowed_file f) names').
Proof. intros Hp. apply sorted_order_irrelevant. by rewrite Hp. Qed.

Lemma resolve_VIDEO_DIR : Os.resolve VIDEO_DIR = ["static"; "videos"].
Proof. reflexivity. Qed.

Lemma resolve_UPLOAD_FOLDER : Os.resolve UPLOAD_FOLDER = Os.resolve VIDEO_DIR.
Proof. reflexivity. Qed.

Lemma dir_at_Some (fs : filesystem) p (ch : filesystem) :
  Os.dir_at fs p = Some ch ↔ Os.locate fs p = Os.Found (Os.Dir ch).
Proof.
  unfold Os.dir_at. destruct (Os.locate fs p) as [[x|ch']| |]; naive_solver.
Qed.

(** [os.listdir] returns exactly when there is a directory at the path,
    and then the names of all its entries. *)
Lemma listdir_dir (fs : filesystem) path (ch : filesystem) :
  Os.dir_at fs (Os.resolve path) = Some ch →
  Os.listdir fs path = inr (elements (dom ch)).
Proof. intros H%dir_at_Some. unfold Os.listdir. by rewrite H. Qed.

Lemma listdir_inr (fs : filesystem) path names :
  Os.listdir fs path = inr names →
  ∃ ch : filesystem,
    Os.dir_at fs (Os.resolve path) = Some ch ∧ names = elements (dom ch).
Proof.
  unfold Os.listdir, Os.dir_at.
  destruct (Os.locate fs (Os.resolve path)) as [[x|ch]| |]; try done.
  intros [= <-]. eauto.
Qed.

Lemma listdir_no_dir (fs : filesystem) path :
  Os.dir_at fs (Os.resolve path) = None → ∃ ex, Os.listdir fs path = inl ex.
Proof.
  unfold Os.listdir, Os.dir_at.
  destruct (Os.locate fs (Os.resolve path)) as [[x|ch]| |]; by eauto.
Qed.

Lemma listdir_entries (fs : filesystem) names :
  Os.listdir fs VIDEO_DIR = inr names → names = elements (entries fs).
Proof.
  intros (ch & Hd & ->)%listdir_inr. unfold entries. by rewrite Hd.
Qed.

Lemma listed_inr (fs : filesystem) names :
  Os.listdir fs VIDEO_DIR = inr names →
  listed fs = Py.sorted (filter (λ f, allowed_file f) names).
Proof. intros H. unfold listed. by rewrite H. Qed.

Lemma listed_inl (fs : filesystem) ex :
  Os.listdir fs VIDEO_DIR = inl ex → listed fs = [].
Proof. intros H. unfold listed. by rewrite H. Qed.

Lemma listed_Sorted (fs : filesystem) : Sorted String.le (listed fs).
Proof.
  unfold listed. destruct (Os.listdir fs VIDEO_DIR); [constructor|].
  apply sorted_Sorted.
Qed.

Lemma listed_NoDup (fs : filesystem) : NoDup (listed fs).
Proof.
  unfold listed. destruct (Os.listdir fs VIDEO_DIR) as [ex|names] eqn:Hl;
    [constructor|].
  apply listdir_entries in Hl as ->.
  rewrite sorted_Permutation. apply NoDup_filter, NoDup_elements.
Qed.

Lemma elem_of_listed (fs : filesystem) name :
  name ∈ listed fs ↔ name ∈ entries fs ∧ allowed_file name = true.
Proof.
  unfold listed. destruct (Os.listdir fs VIDEO_DIR) as [ex|names] eqn:Hl.
  - assert (entries fs = ∅) as ->.
    { unfold entries. destruct (Os.dir_at _ _) as [ch|] eqn:Hd; [|done].
      apply listdir_dir in Hd. congruence. }
    rewrite elem_of_nil, elem_of_empty. tauto.
  - apply listdir_entries in Hl as ->.
    rewrite sorted_Permutation, list_elem_of_filter, elem_of_elements.
    rewrite Is_true_true. tauto.
Qed.

(** ** Characters of the stored name *)

Lemma all_app p s t : Py.all p (s +:+ t) = Py.all p s && Py.all p t.
Proof.
  induction s as [|a s IH]; [done|].
  rewrite app_cons. simpl. by rewrite IH, andb_assoc.
Qed.

Lemma all_impl (p q : ascii → bool) s :
  (∀ a, p a = true → q a = true) → Py.all p s = true → Py.all q s = true.
Proof.
  intros Hpq. induction s as [|a s IH]; simpl; [done|].
  intros [Ha Hs]%andb_true_iff. by rewrite (Hpq a Ha), IH.
Qed.

Lemma all_contains p c s :
  p c = false → Py.all p s = true → Py.contains c s = false.
Proof.
  intros Hc. induction s as [|a s IH]; simpl; [done|].
  intros [Ha Hs]%andb_true_iff. destruct (Ascii.eqb_spec a c) as [->|_].
  - congruence.
  - auto.
Qed.

Lemma all_rev_app p s t :
  Py.all p (String.rev_app s t) = Py.all p s && Py.all p t.
Proof.
  revert t. induction s as [|a s IH]; intros t; simpl; [done|].
  rewrite IH. simpl. by destruct (p a), (Py.all p s).
Qed.

Lemma all_rev p s : Py.all p (String.rev s) = Py.all p s.
Proof. unfold String.rev. rewrite all_rev_app. simpl. apply andb_true_r. Qed.

Lemma all_keep p s : Py.all p (Werkzeug.keep p s) = true.
Proof.
  induction s as [|a s IH]; simpl; [done|].
  destruct (p a) eqn:Ha; simpl; [|done]. by rewrite Ha.
Qed.

Lemma all_lstrip p q s :
  Py.all p s = true → Py.all p (Werkzeug.lstrip q s) = true.
Proof.
  induction s as [|a s IH]; simpl; [done|].
  intros [Ha Hs]%andb_true_iff. destruct (q a); simpl; [auto|].
  by rewrite Ha, Hs.
Qed.

Lemma all_strip p q s :
  Py.all p s = true → Py.all p (Werkzeug.strip q s) = true.
Proof.
  intros H. unfold Werkzeug.strip, Werkzeug.rstrip.
  rewrite all_rev. apply all_lstrip. rewrite all_rev. by apply all_lstrip.
Qed.

(** Whatever the client sent, the sanitised name is made of letters,
    digits, "_", "." and "-". *)
Lemma secure_filename_safe nfkd_ascii name :
  Py.all Werkzeug.is_safe (secure_filename nfkd_ascii name) = true.
Proof. apply all_strip, all_keep. Qed.

Lemma all_substring p n m s :
  Py.all p s = true → Py.all p (String.substring n m s) = true.
Proof.
  revert n m. induction s as [|a s IH]; intros [|n] [|m]; simpl; try done.
  - intros [Ha Hs]%andb_true_iff. by rewrite Ha, IH.
  - intros [Ha Hs]%andb_true_iff. by apply IH.
  - intros [Ha Hs]%andb_true_iff. by apply IH.
Qed.

Lemma substring_length n m s :
  n + m ≤ String.length s → String.length (String.substring n m s) = m.
Proof.
  revert n m. induction s as [|a s IH]; intros [|n] [|m]; simpl; try lia.
  - intros H. rewrite IH; lia.
  - intros H. apply (IH n 0). lia.
  - intros H. apply (IH n (S m)). lia.
Qed.

Lemma substring_split n a b s :
  String.substring n (a + b) s =
  String.substring n a s +:+ String.substring (n + a) b s.
Proof.
  revert n a. induction s as [|c s IH]; intros [|n] [|a]; simpl; try done.
  - by rewrite (IH 0 a), app_cons.
  - apply (IH n 0).
  - apply (IH n (S a)).
Qed.

Lemma substring_all s : String.substring 0 (String.length s) s = s.
Proof. induction s as [|a s IH]; simpl; [done|]. by rewrite IH. Qed.

(** ** The token *)

Lemma hex_digit_is_hex n : is_hex (Uuid.hex_digit n) = true.
Proof.
  unfold Uuid.hex_digit. generalize (N.to_nat n). intros k.
  do 16 (destruct k as [|k]; [reflexivity|]). reflexivity.
Qed.

Lemma hex_value_digit n : (n < 16)%N → hex_value (Uuid.hex_digit n) = n.
Proof.
  intros Hn. unfold Uuid.hex_digit.
  rewrite <-(N2Nat.id n) at 2. assert (N.to_nat n < 16) as Hk by lia.
  revert Hk. generalize (N.to_nat n). intros k Hk.
  do 16 (destruct k as [|k]; [reflexivity|]). lia.
Qed.

Lemma hex_length d v : String.length (Uuid.hex d v) = d.
Proof.
  revert v. induction d as [|d IH]; intros v; simpl; [done|].
  rewrite app_length, IH. simpl. lia.
Qed.

Lemma hex_is_hex d v : Py.all is_hex (Uuid.hex d v) = true.
Proof.
  revert v. induction d as [|d IH]; intros v; simpl; [done|].
  rewrite all_app, IH. simpl. by rewrite hex_digit_is_hex.
Qed.

(** Printing a fixed number of hex digits loses nothing of a value that
    fits. *)
Lemma hex_inj d v1 v2 :
  Uuid.hex d v1 = Uuid.hex d v2 → (v1 mod 16 ^ N.of_nat d = v2 mod 16 ^ N.of_nat d)%N.
Proof.
  revert v1 v2. induction d as [|d IH]; intros v1 v2; simpl.
  - intros _. by rewrite !N.mod_1_r.
  - intros [H1 H2]%app_inj_length; [|by rewrite !hex_length].
    injection H2 as H2. apply IH in H1.
    assert (v1 mod 16 = v2 mod 16)%N as H0.
    { rewrite <-(hex_value_digit (v1 mod 16)), <-(hex_value_digit (v2 mod 16));
        [by rewrite H2|by apply N.mod_upper_bound..]. }
    rewrite Nat2N.inj_succ, N.pow_succ_r'.
    rewrite !N.Div0.mod_mul_r. by rewrite H0, H1.
Qed.

Lemma lor_lt_pow2 a b n :
  (a < 2 ^ n → b < 2 ^ n → N.lor a b < 2 ^ n)%N.
Proof.
  intros Ha Hb.
  assert (N.lor a b = N.lor a b mod 2 ^ n)%N as ->;
    [|apply N.mod_upper_bound, N.pow_nonzero; lia].
  apply N.bits_inj. intros m. destruct (N.ltb_spec m n) as [Hm|Hm].
  - by rewrite N.mod_pow2_bits_low.
  - rewrite N.mod_pow2_bits_high, N.lor_spec by done.
    rewrite <-(N.mod_small a (2 ^ n)), <-(N.mod_small b (2 ^ n)) by done.
    by rewrite !N.mod_pow2_bits_high.
Qed.

(** The integer of a version 4 UUID fits in sixteen bytes. *)
Lemma uuid_int_lt r : (Uuid.uuid_int r < 2 ^ 128)%N.
Proof.
  unfold Uuid.uuid_int.
  assert (r mod 2 ^ 128 < 2 ^ 128)%N as H by (apply N.mod_upper_bound; lia).
  revert H. generalize (r mod 2 ^ 128)%N. intros i Hi.
  apply lor_lt_pow2; [|by vm_compute].
  eapply N.le_lt_trans; [apply N.ldiff_le_l|].
  apply lor_lt_pow2; [|by vm_compute].
  eapply N.le_lt_trans; [apply N.ldiff_le_l|done].
Qed.

Lemma str_length i : String.length (Uuid.str i) = 36.
Proof.
  unfold Uuid.str.
  rewrite !app_length, !substring_length; [done|rewrite hex_length; lia..].
Qed.

Lemma str_hex_or_dash i : Py.all is_hex_or_dash (Uuid.str i) = true.
Proof.
  assert (∀ n m, Py.all is_hex_or_dash (String.substring n m (Uuid.hex 32 i)) = true) as H.
  { intros n m. apply all_substring, (all_impl is_hex); [|apply hex_is_hex].
    intros a Ha. unfold is_hex_or_dash. by rewrite Ha. }
  unfold Uuid.str. rewrite !all_app, !H. reflexivity.
Qed.

(** The groups of the printed form cover the 32 digits: equal tokens have
    equal digits. *)
Lemma str_inj_hex i j :
  Uuid.str i = Uuid.str j → Uuid.hex 32 i = Uuid.hex 32 j.
Proof.
  unfold Uuid.str.
  assert (∀ k, String.length (Uuid.hex 32 k) = 8 + (4 + (4 + (4 + 12)))) as Hlen.
  { intros k. by rewrite hex_length. }
  assert (∀ k, Uuid.hex 32 k =
    String.substring 0 8 (Uuid.hex 32 k) +:+ String.substring 8 4 (Uuid.hex 32 k) +:+
    String.substring 12 4 (Uuid.hex 32 k) +:+ String.substring 16 4 (Uuid.hex 32 k) +:+
    String.substring 20 12 (Uuid.hex 32 k)) as Hcover.
  { intros k. rewrite <-(substring_all (Uuid.hex 32 k)) at 1.
    rewrite Hlen. by rewrite !substring_split. }
  assert (∀ k n m, n + m ≤ 32 →
    String.length (String.substring n m (Uuid.hex 32 k)) = m) as Hsub.
  { intros k n m ?. apply substring_length. rewrite hex_length. lia. }
  intros Heq.
  apply app_inj_length in Heq as [HA Heq]; [|by rewrite !Hsub by lia].
  apply app_inj_length in Heq as [_ Heq]; [|done].
  apply app_inj_length in Heq as [HB Heq]; [|by rewrite !Hsub by lia].
  apply app_inj_length in Heq as [_ Heq]; [|done].
  apply app_inj_length in Heq as [HC Heq]; [|by rewrite !Hsub by lia].
  apply app_inj_length in Heq as [_ Heq]; [|done].
  apply app_inj_length in Heq as [HD Heq]; [|by rewrite !Hsub by lia].
  apply app_inj_length in Heq as [_ HE]; [|done].
  rewrite (Hcover i), (Hcover j). by rewrite HA, HB, HC, HD, HE.
Qed.

Lemma str_inj i j :
  (i < 2 ^ 128)%N → (j < 2 ^ 128)%N → Uuid.str i = Uuid.str j → i = j.
Proof.
  intros Hi Hj H%str_inj_hex%hex_inj.
  change (16 ^ N.of_nat 32)%N with (2 ^ 128)%N in H.
  by rewrite !N.mod_small in H.
Qed.

(** Two tokens are equal only when their random bits are. *)
Lemma uuid4_inj r1 r2 :
  Uuid.uuid4 r1 = Uuid.uuid4 r2 → Uuid.uuid_int r1 = Uuid.uuid_int r2.
Proof. apply str_inj; apply uuid_int_lt. Qed.

Lemma uuid4_length r : String.length (Uuid.uuid4 r) = 36.
Proof. apply str_length. Qed.

Lemma hex_or_dash_safe a : is_hex_or_dash a = true → Werkzeug.is_safe a = true.
Proof.
  unfold is_hex_or_dash, is_hex, Werkzeug.is_safe, Werkzeug.is_lower.
  intros [[H|[H1 H2]%andb_true_iff]%orb_true_iff|H]%orb_true_iff.
  - rewrite H. by rewrite !orb_true_r.
  - apply Nat.leb_le in H1, H2.
    assert ((97 <=? nat_of_ascii a)%nat && (nat_of_ascii a <=? 122)%nat = true) as ->.
    { apply andb_true_iff. split; apply Nat.leb_le; lia. }
    by rewrite !orb_true_r.
  - rewrite H. by rewrite !orb_true_r.
Qed.

Lemma uuid4_safe r : Py.all Werkzeug.is_safe (Uuid.uuid4 r) = true.
Proof.
  apply (all_impl is_hex_or_dash); [apply hex_or_dash_safe|apply str_hex_or_dash].
Qed.

(** A token holds no dot. *)
Lemma uuid4_no_dot r : Py.contains "." (Uuid.uuid4 r) = false.
Proof. by apply (all_contains is_hex_or_dash); [|apply str_hex_or_dash]. Qed.

(** ** Paths *)

Lemma split_sep_no_sep c s :
  Py.contains c s = false → Os.split_sep c s = [s].
Proof.
  induction s as [|a s IH]; simpl; [done|].
  destruct (Ascii.eqb a c); [done|]. intros H. by rewrite IH.
Qed.

Lemma split_sep_app c s t :
  Py.contains c s = false →
  Os.split_sep c (s +:+ String c t) = s :: Os.split_sep c t.
Proof.
  induction s as [|a s IH]; simpl.
  - intros _. by rewrite Ascii.eqb_refl.
  - destruct (Ascii.eqb a c) eqn:Ha; [done|]. intros H. by rewrite IH.
Qed.

Lemma contains_startswith c s :
  Py.contains c s = false → Py.startswith c s = false.
Proof. destruct s as [|a s]; simpl; [done|]. by destruct (Ascii.eqb a c). Qed.

(** A name without "/" that is not a dot entry names, once joined to the
    upload folder, a direct child of that folder. *)
Lemma resolve_child name :
  Py.contains "/" name = false → name ≠ "" → name ≠ "." → name ≠ ".." →
  Os.resolve (path_join UPLOAD_FOLDER name) = Os.resolve UPLOAD_FOLDER ++ [name].
Proof.
  intros Hsep H0 H1 H2. unfold path_join.
  rewrite (contains_startswith _ _ Hsep).
  change (if String.eqb UPLOAD_FOLDER "" || Py.endswith "/" UPLOAD_FOLDER
          then UPLOAD_FOLDER +:+ name else UPLOAD_FOLDER +:+ "/" +:+ name)
    with ("static" +:+ String "/" ("videos" +:+ String "/" name)).
  unfold Os.resolve.
  change (Py.startswith "/" ("static" +:+ String "/" ("videos" +:+ String "/" name)))
    with false.
  rewrite !split_sep_app, (split_sep_no_sep _ _ Hsep) by done.
  change (foldl Os.walk [] ["static"; "videos"; name])
    with (Os.walk ["videos"; "static"] name).
  unfold Os.walk. rewrite !bool_decide_eq_false_2; [done|done|tauto].
Qed.

Section StoredName.
Variable nfkd_ascii : string → string.
Variables (e : env) (file : FileStorage).

Lemma stored_filename_safe :
  Py.all Werkzeug.is_safe (stored_filename nfkd_ascii e file) = true.
Proof.
  unfold stored_filename.
  by rewrite !all_app, uuid4_safe, secure_filename_safe.
Qed.

Lemma stored_filename_no_sep :
  Py.contains "/" (stored_filename nfkd_ascii e file) = false.
Proof. by apply (all_contains Werkzeug.is_safe), stored_filename_safe. Qed.

Lemma stored_filename_length :
  String.length (stored_filename nfkd_ascii e file) =
  37 + String.length (secure_filename nfkd_ascii (filename file)).
Proof.
  unfold stored_filename. rewrite !app_length, uuid4_length. simpl. lia.
Qed.

(** The path of the write is the upload folder followed by the stored
    name, which is a single component. *)
Lemma resolve_file_path :
  Os.resolve (file_path nfkd_ascii e file) =
  Os.resolve UPLOAD_FOLDER ++ [stored_filename nfkd_ascii e file].
Proof.
  pose proof stored_filename_length as Hlen.
  apply resolve_child; [apply stored_filename_no_sep|..];
    intros H; rewrite H in Hlen; simpl in Hlen; lia.
Qed.
End StoredName.


(** The token is decided by the bits of the draw that are kept, and by
    nothing else. *)
Lemma uuid_int_random_bits r1 r2 :
  Uuid.uuid_int r1 = Uuid.uuid_int r2 ↔ random_bits r1 = random_bits r2.
Proof.
  assert (∀ r, random_bits r = N.ldiff (Uuid.uuid_int r) fixed_bits) as Hrb.
  { intros r. unfold random_bits, Uuid.uuid_int, fixed_bits.
    generalize (r mod 2 ^ 128)%N. intros i. apply N.bits_inj. intros n.
    repeat first [rewrite N.ldiff_spec | rewrite N.lor_spec].
    assert (N.testbit (N.ldiff (N.shiftl 0x8000 48) (N.shiftl 0xc000 48)) n = false)
      as H1 by (by vm_compute (N.ldiff _ _)).
    assert (N.testbit (N.ldiff (N.shiftl 4 76) (N.shiftl 0xf000 64)) n = false)
      as H2 by (by vm_compute (N.ldiff _ _)).
    rewrite N.ldiff_spec in H1, H2.
    destruct (N.testbit i n), (N.testbit (N.shiftl 0xc000 48) n),
      (N.testbit (N.shiftl 0x8000 48) n), (N.testbit (N.shiftl 0xf000 64) n),
      (N.testbit (N.shiftl 4 76) n); done. }
  assert (∀ r, Uuid.uuid_int r =
               N.lor (random_bits r) (N.lor (N.shiftl 4 76) (N.shiftl 0x8000 48))) as Hui.
  { intros r. unfold random_bits, Uuid.uuid_int, fixed_bits.
    generalize (r mod 2 ^ 128)%N. intros i. apply N.bits_inj. intros n.
    repeat first [rewrite N.ldiff_spec | rewrite N.lor_spec].
    assert (N.testbit (N.land (N.shiftl 0x8000 48) (N.shiftl 0xf000 64)) n = false)
      as H1 by (by vm_compute (N.land _ _)).
    rewrite N.land_spec in H1.
    destruct (N.testbit i n), (N.testbit (N.shiftl 0xc000 48) n),
      (N.testbit (N.shiftl 0x8000 48) n), (N.testbit (N.shiftl 0xf000 64) n),
      (N.testbit (N.shiftl 4 76) n); done. }
  split; intros H.
  - by rewrite !Hrb, H.
  - by rewrite !Hui, H.
Qed.

Lemma uuid4_random_bits r1 r2 :
  Uuid.uuid4 r1 = Uuid.uuid4 r2 ↔ random_bits r1 = random_bits r2.
Proof.
  rewrite <-uuid_int_random_bits. split; [apply uuid4_inj|].
  unfold Uuid.uuid4. by intros ->.
Qed.

(** ** The file system *)

Lemma dir_at_nil (fs : filesystem) : Os.dir_at fs [] = Some fs.
Proof. reflexivity. Qed.

Lemma dir_at_cons (fs : filesystem) c p :
  Os.dir_at fs (c :: p) =
  match fs !! c with
  | Some (Os.Dir ch) => Os.dir_at ch p
  | _ => None
  end.
Proof.
  unfold Os.dir_at. simpl. destruct (fs !! c) as [[x|ch]|]; [|done..].
  by destruct p.
Qed.

Lemma dir_at_empty p : Os.dir_at ∅ p = match p with [] => Some ∅ | _ => None end.
Proof. destruct p as [|c p]; [done|]. by rewrite dir_at_cons, lookup_empty. Qed.

Lemma files_in_nil (fs : filesystem) :
  Os.files_in fs [] = omap Os.file_data fs.
Proof. reflexivity. Qed.

Lemma files_in_cons (fs : filesystem) c p :
  Os.files_in fs (c :: p) =
  match fs !! c with
  | Some (Os.Dir ch) => Os.files_in ch p
  | _ => ∅
  end.
Proof.
  unfold Os.files_in. rewrite dir_at_cons.
  by destruct (fs !! c) as [[x|ch]|].
Qed.

Lemma files_in_empty p : Os.files_in ∅ p = ∅.
Proof.
  unfold Os.files_in. rewrite dir_at_empty. destruct p; [|done].
  apply omap_empty.
Qed.

(** Replacing a directory by a directory leaves the regular files of the
    directory above as they are. *)
Lemma omap_file_data_insert_dir (fs ch : filesystem) c :
  fs !! c ≫= Os.file_data = None →
  omap Os.file_data (<[c := Os.Dir ch]> fs) = omap Os.file_data fs.
Proof.
  intros Hc. apply map_eq. intros i. rewrite !lookup_omap.
  destruct (decide (i = c)) as [->|Hne].
  - by rewrite lookup_insert_eq, Hc.
  - by rewrite lookup_insert_ne.
Qed.

Section AlterDir.
Variable f : filesystem → filesystem.

Lemma dir_at_alter_dir (fs c0 : filesystem) p :
  Os.dir_at fs p = Some c0 → Os.dir_at (Os.alter_dir f fs p) p = Some (f c0).
Proof.
  revert fs. induction p as [|c p IH]; intros fs; simpl.
  - by intros [= ->].
  - rewrite dir_at_cons. destruct (fs !! c) as [[x|ch]|] eqn:Hc; try done.
    intros H. rewrite dir_at_cons, lookup_insert_eq. by apply IH.
Qed.

(** A change of the entries of the directory at [p] that neither adds,
    removes nor changes a directory among them leaves the regular files
    of every other directory as they are. *)
Lemma files_in_alter_dir (fs c0 : filesystem) p d :
  Os.dir_at fs p = Some c0 →
  (∀ x (ch : filesystem),
     f c0 !! x = Some (Os.Dir ch) ↔ c0 !! x = Some (Os.Dir ch)) →
  d ≠ p →
  Os.files_in (Os.alter_dir f fs p) d = Os.files_in fs d.
Proof.
  intros Hat Hf. revert fs d Hat. induction p as [|c p IH]; intros fs d; simpl.
  - intros [= ->] Hd. destruct d as [|x d]; [done|].
    rewrite !files_in_cons.
    destruct (f c0 !! x) as [[y|ch]|] eqn:H1, (c0 !! x) as [[y'|ch']|] eqn:H2;
      try done.
    + apply Hf in H2. congruence.
    + apply Hf in H1. congruence.
    + apply Hf in H1. congruence.
    + apply Hf in H1. congruence.
    + apply Hf in H2. congruence.
  - rewrite dir_at_cons. destruct (fs !! c) as [[x|ch]|] eqn:Hc; try done.
    intros Hat Hd. destruct d as [|x d].
    + rewrite !files_in_nil. apply omap_file_data_insert_dir. by rewrite Hc.
    + rewrite !files_in_cons. destruct (decide (x = c)) as [->|Hne].
      * rewrite lookup_insert_eq, Hc. apply IH; [done|congruence].
      * by rewrite lookup_insert_ne.
Qed.
End AlterDir.

Section Mkdirs.
Variables (denied : option string) (path : string).

(** Where [os.makedirs] returns, the directory is there, with the entries
    it had if it was there before and empty otherwise. *)
Lemma dir_at_mkdirs (fs fs' : filesystem) p :
  Os.mkdirs denied path fs p = inr fs' →
  Os.dir_at fs' p = Some (default ∅ (Os.dir_at fs p)).
Proof.
  revert fs fs'. induction p as [|c p IH]; intros fs fs'; simpl.
  - by intros [= ->].
  - rewrite (dir_at_cons fs).
    destruct (fs !! c) as [[x|ch]|] eqn:Hc.
    + by destruct p.
    + destruct (Os.mkdirs denied path ch p) as [ex|ch'] eqn:Hm; [done|].
      intros [= <-]. rewrite dir_at_cons, lookup_insert_eq. by apply IH.
    + destruct denied; [done|].
      destruct (Os.mkdirs None path ∅ p) as [ex|ch'] eqn:Hm; [done|].
      intros [= <-]. rewrite dir_at_cons, lookup_insert_eq.
      rewrite (IH _ _ Hm), dir_at_empty. by destruct p.
Qed.

(** [os.makedirs] adds no regular file and removes none, anywhere. *)
Lemma files_in_mkdirs (fs fs' : filesystem) p d :
  Os.mkdirs denied path fs p = inr fs' → Os.files_in fs' d = Os.files_in fs d.
Proof.
  revert fs fs' d. induction p as [|c p IH]; intros fs fs' d; simpl.
  - by intros [= ->].
  - destruct (fs !! c) as [[x|ch]|] eqn:Hc.
    + by destruct p.
    + destruct (Os.mkdirs denied path ch p) as [ex|ch'] eqn:Hm; [done|].
      intros [= <-]. destruct d as [|x d].
      * rewrite !files_in_nil. apply omap_file_data_insert_dir. by rewrite Hc.
      * rewrite !files_in_cons. destruct (decide (x = c)) as [->|Hne].
        -- rewrite lookup_insert_eq, Hc. by apply IH.
        -- by rewrite lookup_insert_ne.
    + destruct denied; [done|].
      destruct (Os.mkdirs None path ∅ p) as [ex|ch'] eqn:Hm; [done|].
      intros [= <-]. destruct d as [|x d].
      * rewrite !files_in_nil. apply omap_file_data_insert_dir. by rewrite Hc.
      * rewrite !files_in_cons. destruct (decide (x = c)) as [->|Hne].
        -- rewrite lookup_insert_eq, Hc. rewrite (IH _ _ _ Hm). apply files_in_empty.
        -- by rewrite lookup_insert_ne.
Qed.
End Mkdirs.

(** A second [os.makedirs] finds the directories in place: it returns the
    tree as it is, whatever the system would refuse. *)
Lemma mkdirs_again denied denied' path path' (fs fs' : filesystem) p :
  Os.mkdirs denied path fs p = inr fs' →
  Os.mkdirs denied' path' fs' p = inr fs'.
Proof.
  revert fs fs'. induction p as [|c p IH]; intros fs fs'; simpl; [done|].
  destruct (fs !! c) as [[x|ch]|] eqn:Hc.
  - by destruct p.
  - destruct (Os.mkdirs denied path ch p) as [ex|ch'] eqn:Hm; [done|].
    intros [= <-]. rewrite lookup_insert_eq, (IH _ _ Hm).
    by rewrite insert_insert_eq.
  - destruct denied; [done|].
    destruct (Os.mkdirs None path ∅ p) as [ex|ch'] eqn:Hm; [done|].
    intros [= <-]. rewrite lookup_insert_eq, (IH _ _ Hm).
    by rewrite insert_insert_eq.
Qed.

Lemma dir_at_makedirs denied (fs fs1 : filesystem) :
  Os.makedirs denied fs UPLOAD_FOLDER = inr fs1 →
  Os.dir_at fs1 (Os.resolve UPLOAD_FOLDER) =
  Some (default ∅ (Os.dir_at fs (Os.resolve UPLOAD_FOLDER))).
Proof. apply dir_at_mkdirs. Qed.

Lemma files_in_makedirs denied (fs fs1 : filesystem) d :
  Os.makedirs denied fs UPLOAD_FOLDER = inr fs1 →
  Os.files_in fs1 d = Os.files_in fs d.
Proof. apply files_in_mkdirs. Qed.

Lemma entries_makedirs denied (fs fs1 : filesystem) :
  Os.makedirs denied fs UPLOAD_FOLDER = inr fs1 → entries fs1 = entries fs.
Proof.
  intros H%dir_at_makedirs. unfold entries.
  change (Os.resolve VIDEO_DIR) with (Os.resolve UPLOAD_FOLDER). rewrite H.
  by destruct (Os.dir_at fs (Os.resolve UPLOAD_FOLDER)).
Qed.

(** *** A write into the upload folder *)

Section Store.
Variables (fs1 c0 : filesystem) (name : string) (data : list Byte.byte).
Hypothesis Hdir : Os.dir_at fs1 (Os.resolve UPLOAD_FOLDER) = Some c0.
Hypothesis Hfree : ∀ ch : filesystem, c0 !! name ≠ Some (Os.Dir ch).

Lemma dir_at_store :
  Os.dir_at (store fs1 name data) (Os.resolve UPLOAD_FOLDER) =
  Some (<[name := Os.File data]> c0).
Proof.
  unfold store.
  by rewrite (dir_at_alter_dir (λ ch, <[name := Os.File data]> ch) fs1 c0).
Qed.

Lemma files_in_store :
  Os.files_in (store fs1 name data) (Os.resolve UPLOAD_FOLDER) =
  <[name := data]> (Os.files_in fs1 (Os.resolve UPLOAD_FOLDER)).
Proof.
  unfold Os.files_in. rewrite dir_at_store, Hdir.
  by apply omap_insert_Some.
Qed.

Lemma files_in_store_ne d :
  d ≠ Os.resolve UPLOAD_FOLDER →
  Os.files_in (store fs1 name data) d = Os.files_in fs1 d.
Proof.
  intros Hd. unfold store.
  apply (files_in_alter_dir (λ ch, <[name := Os.File data]> ch) fs1 c0); [done| |done].
  intros x ch. destruct (decide (x = name)) as [->|Hne].
  - rewrite lookup_insert_eq. split; [done|]. intros H. by apply Hfree in H.
  - by rewrite lookup_insert_ne.
Qed.

Lemma entries_store :
  entries (store fs1 name data) = {[ name ]} ∪ entries fs1.
Proof.
  unfold entries. change (Os.resolve VIDEO_DIR) with (Os.resolve UPLOAD_FOLDER).
  by rewrite dir_at_store, Hdir, dom_insert_L.
Qed.
End Store.

(** A write to a child of an existing directory. *)
Lemma file_save_child (fs ch : filesystem) dst dir name data flt :
  Os.resolve dst = dir ++ [name] → Os.dir_at fs dir = Some ch →
  Os.file_save fs dst data flt =
  match ch !! name with
  | Some (Os.Dir _) => (inl (Os.IsADirectoryError dst), fs)
  | _ =>
      match flt with
      | Some f =>
          (inl (Os.OSError (Os.strerror f)),
           match Os.residue f with
           | Some part => Os.alter_dir (λ ch, <[name := Os.File part]> ch) fs dir
           | None => fs
           end)
      | None => (inr (), Os.alter_dir (λ ch, <[name := Os.File data]> ch) fs dir)
      end
  end.
Proof.
  intros Hp Hd%dir_at_Some. unfold Os.file_save.
  rewrite Hp, reverse_snoc, reverse_involutive, Hd. reflexivity.
Qed.

Lemma dir_at_snoc (fs : filesystem) p n :
  Os.dir_at fs (p ++ [n]) =
  match Os.dir_at fs p with
  | Some ch => match ch !! n with Some (Os.Dir c) => Some c | _ => None end
  | None => None
  end.
Proof.
  revert fs. induction p as [|c p IH]; intros fs; simpl.
  - rewrite dir_at_cons. by destruct (fs !! n) as [[x|ch]|].
  - rewrite !dir_at_cons. destruct (fs !! c) as [[x|ch]|]; [done| |done].
    apply IH.
Qed.

(** ** The upload view *)

Section Upload.
Variable nfkd_ascii : string → string.

(** Without a file part, or with an empty name, nothing is done. *)
Lemma upload_file_no_file files e fs :
  files !! "file" = None → upload_file nfkd_ascii files e fs = (no_file_selected, fs).
Proof. intros H. unfold upload_file. by rewrite H. Qed.

Lemma upload_file_empty_name files e fs file :
  files !! "file" = Some file → filename file = "" →
  upload_file nfkd_ascii files e fs = (no_file_selected, fs).
Proof. intros H Hn. unfold upload_file. by rewrite H, Hn. Qed.

(** With a name that fails the extension check, nothing is done. *)
Lemma upload_file_rejected files e fs file :
  files !! "file" = Some file → filename file ≠ "" →
  allowed_file (filename file) = false →
  upload_file nfkd_ascii files e fs = (invalid_file_type, fs).
Proof.
  intros H Hn Ha. unfold upload_file. rewrite H, Ha, andb_false_r.
  by apply String.eqb_neq in Hn as ->.
Qed.

(** An accepted upload comes down to [os.makedirs] and, where it returns,
    one write at [file_path]. *)
Lemma upload_file_accepted files e fs file :
  accepted files file →
  upload_file nfkd_ascii files e fs =
  match Os.makedirs (mkdir_fault e) fs UPLOAD_FOLDER with
  | inl _ => (internal_server_error, fs)
  | inr fs1 =>
      match Os.file_save fs1 (file_path nfkd_ascii e file) (stream file) (fault e) with
      | (inr _, fs') => (uploaded, fs')
      | (inl ex, fs') => (upload_failed (Os.str_exn ex), fs')
      end
  end.
Proof.
  intros (H & Hn & Ha). unfold upload_file, FileStorage_bool.
  rewrite H, Ha. apply String.eqb_neq in Hn as ->. reflexivity.
Qed.

(** The write of an accepted upload, spelled out. *)
Lemma file_save_upload e (fs fs1 : filesystem) file :
  Os.makedirs (mkdir_fault e) fs UPLOAD_FOLDER = inr fs1 →
  Os.file_save fs1 (file_path nfkd_ascii e file) (stream file) (fault e) =
  match folder fs !! stored_filename nfkd_ascii e file with
  | Some (Os.Dir _) =>
      (inl (Os.IsADirectoryError (file_path nfkd_ascii e file)), fs1)
  | _ =>
      match fault e with
      | Some f =>
          (inl (Os.OSError (Os.strerror f)),
           match Os.residue f with
           | Some part => store fs1 (stored_filename nfkd_ascii e file) part
           | None => fs1
           end)
      | None => (inr (), store fs1 (stored_filename nfkd_ascii e file) (stream file))
      end
  end.
Proof.
  intros Hm%dir_at_makedirs.
  by rewrite (file_save_child fs1 (folder fs) _ _ _ _ _
                (resolve_file_path nfkd_ascii e file) Hm).
Qed.

(** Every accepted upload ends in one of the five ways. *)
Lemma upload_file_effect files e (fs : filesystem) file :
  accepted files file →
  upload_effect e fs (stored_filename nfkd_ascii e file) (stream file)
    (upload_file nfkd_ascii files e fs).1 (upload_file nfkd_ascii files e fs).2.
Proof.
  intros Hacc. rewrite (upload_file_accepted _ _ _ _ Hacc).
  destruct (Os.makedirs (mkdir_fault e) fs UPLOAD_FOLDER) as [ex|fs1] eqn:Hm.
  { by eapply effect_raise. }
  rewrite (file_save_upload _ _ _ _ Hm).
  destruct (folder fs !! stored_filename nfkd_ascii e file) as [[x|ch]|] eqn:Hn.
  - assert (name_free fs (stored_filename nfkd_ascii e file)) as Hfree.
    { intros ch. congruence. }
    destruct (fault e) as [f|] eqn:Hf; simpl; [|by apply effect_stored].
    destruct (Os.residue f) as [part|] eqn:Hr.
    + by eapply effect_residue.
    + by apply effect_fault.
  - simpl. apply effect_taken; [done|]. intros Hfree. by apply (Hfree ch).
  - assert (name_free fs (stored_filename nfkd_ascii e file)) as Hfree.
    { intros ch. congruence. }
    destruct (fault e) as [f|] eqn:Hf; simpl; [|by apply effect_stored].
    destruct (Os.residue f) as [part|] eqn:Hr.
    + by eapply effect_residue.
    + by apply effect_fault.
Qed.

Lemma upload_file_status files e fs :
  status (upload_file nfkd_ascii files e fs).1 = 200
  ∨ status (upload_file nfkd_ascii files e fs).1 = 500.
Proof.
  unfold upload_file. destruct (files !! "file") as [file|]; [|by left].
  destruct (String.eqb (filename file) ""); [by left|].
  destruct (FileStorage_bool file && allowed_file (filename file)); [|by left].
  destruct (Os.makedirs _ _ _) as [ex|fs1]; [by right|].
  destruct (Os.file_save _ _ _ _) as [[ex|[]] fs']; by left.
Qed.
End Upload.

(** *** What the five ways do to the tree *)

Section Effect.
Variables (e : env) (fs : filesystem) (name : string) (data : list Byte.byte).
Variables (r : response) (fs' : filesystem).
Hypothesis Heff : upload_effect e fs name data r fs'.

Let dir : list string := Os.resolve UPLOAD_FOLDER.

Lemma store_facts (fs1 : filesystem) x :
  Os.makedirs (mkdir_fault e) fs UPLOAD_FOLDER = inr fs1 →
  name_free fs name →
  Os.files_in (store fs1 name x) dir = <[name := x]> (Os.files_in fs dir)
  ∧ (∀ d, d ≠ dir → Os.files_in (store fs1 name x) d = Os.files_in fs d)
  ∧ entries (store fs1 name x) = {[ name ]} ∪ entries fs
  ∧ Os.dir_at (store fs1 name x) dir = Some (<[name := Os.File x]> (folder fs)).
Proof.
  intros Hm Hfree. pose proof (dir_at_makedirs _ _ _ Hm) as Hd.
  split_and!.
  - rewrite (files_in_store fs1 (folder fs)) by done.
    by rewrite (files_in_makedirs _ _ _ _ Hm).
  - intros d Hne. rewrite (files_in_store_ne fs1 (folder fs)) by done.
    by rewrite (files_in_makedirs _ _ _ _ Hm).
  - rewrite (entries_store fs1 (folder fs)) by done.
    by rewrite (entries_makedirs _ _ _ Hm).
  - by apply dir_at_store.
Qed.

(** Outside the upload folder no file appears, changes or goes. *)
Lemma effect_elsewhere d : d ≠ dir → Os.files_in fs' d = Os.files_in fs d.
Proof.
  intros Hd. destruct Heff as [ex Hm|fs1 msg Hm _|fs1 f Hm _ _ _
                              |fs1 f part Hm Hfree _ _|fs1 Hm Hfree _].
  - done.
  - by apply (files_in_makedirs _ _ _ _ Hm).
  - by apply (files_in_makedirs _ _ _ _ Hm).
  - by apply (store_facts fs1 part Hm Hfree).
  - by apply (store_facts fs1 data Hm Hfree).
Qed.

(** In the upload folder only the stored name can change. *)
Lemma effect_other_names n :
  n ≠ name → Os.files_in fs' dir !! n = Os.files_in fs dir !! n.
Proof.
  intros Hn. destruct Heff as [ex Hm|fs1 msg Hm _|fs1 f Hm _ _ _
                              |fs1 f part Hm Hfree _ _|fs1 Hm Hfree _].
  - done.
  - by rewrite (files_in_makedirs _ _ _ _ Hm).
  - by rewrite (files_in_makedirs _ _ _ _ Hm).
  - destruct (store_facts fs1 part Hm Hfree) as [-> _]. by rewrite lookup_insert_ne.
  - destruct (store_facts fs1 data Hm Hfree) as [-> _]. by rewrite lookup_insert_ne.
Qed.

(** A success answer means the stream is in the folder under the stored
    name. *)
Lemma effect_success :
  r = uploaded →
  Os.files_in fs' dir = <[name := data]> (Os.files_in fs dir)
  ∧ entries fs' = {[ name ]} ∪ entries fs
  ∧ is_Some (Os.dir_at fs' dir).
Proof.
  destruct Heff as [ex Hm|fs1 msg Hm _|fs1 f Hm _ _ _
                   |fs1 f part Hm Hfree _ _|fs1 Hm Hfree _]; try done.
  intros _. destruct (store_facts fs1 data Hm Hfree) as (H1 & _ & H3 & H4).
  split_and!; [done..|]. rewrite H4. eauto.
Qed.

Lemma effect_entries :
  entries fs' = entries fs ∨ entries fs' = {[ name ]} ∪ entries fs.
Proof.
  destruct Heff as [ex Hm|fs1 msg Hm _|fs1 f Hm _ _ _
                   |fs1 f part Hm Hfree _ _|fs1 Hm Hfree _].
  - by left.
  - left. by apply (entries_makedirs _ _ _ Hm).
  - left. by apply (entries_makedirs _ _ _ Hm).
  - right. by apply (store_facts fs1 part Hm Hfree).
  - right. by apply (store_facts fs1 data Hm Hfree).
Qed.


(** A failure that left nothing at the destination leaves every
    directory with the files it had. *)
Lemma effect_clean d :
  r ≠ uploaded → (∀ f, fault e = Some f → Os.residue f = None) →
  Os.files_in fs' d = Os.files_in fs d.
Proof.
  intros Hr Hres. destruct Heff as [ex Hm|fs1 msg Hm _|fs1 f Hm _ _ _
                                   |fs1 f part Hm Hfree Hf Hp|fs1 Hm Hfree _].
  - done.
  - by apply (files_in_makedirs _ _ _ _ Hm).
  - by apply (files_in_makedirs _ _ _ _ Hm).
  - rewrite (Hres f Hf) in Hp. done.
  - done.
Qed.
End Effect.

(** ** The listing views *)

Section Listing.
Variable url_for : string → string → string.
Variable render_template : string → list string → string.

(** The URL the views build for a listed name. *)
Let url (name : string) : string := url_for "static" ("videos/" +:+ name).

Lemma get_videos_listed (fs : filesystem) :
  status (get_videos url_for fs) = 200 →
  get_videos url_for fs =
  jsonify [("videos", JArray (JString <$> (url <$> listed fs)))].
Proof.
  unfold get_videos, listed.
  by destruct (Os.listdir fs VIDEO_DIR) as [[]|names].
Qed.

Lemma get_videos_dir (fs : filesystem) :
  is_Some (Os.dir_at fs (Os.resolve VIDEO_DIR)) →
  get_videos url_for fs =
  jsonify [("videos", JArray (JString <$> (url <$> listed fs)))].
Proof.
  intros [ch Hd%listdir_dir]. unfold get_videos, listed. by rewrite Hd.
Qed.

Lemma index_listed (fs : filesystem) :
  is_Some (Os.dir_at fs (Os.resolve VIDEO_DIR)) →
  index url_for render_template fs =
  ({| status := 200;
      payload := Text (render_template "index.html" (url <$> listed fs)) |}, []).
Proof.
  intros [ch Hd%listdir_dir]. unfold index, listed. by rewrite Hd.
Qed.

Lemma listdir_missing (fs : filesystem) path :
  Os.locate fs (Os.resolve path) = Os.Missing →
  Os.listdir fs path = inl (Os.FileNotFoundError path).
Proof. intros H. unfold Os.listdir. by rewrite H. Qed.

(** C1. Whatever the media directory holds, and also when it does not
    exist, [GET /api/videos] answers with status 200 and the JSON object
    whose "videos" field lists, for exactly the entries of the directory
    whose extension lowercased is in the whitelist (none when the directory
    is missing), the URL built from "videos/" and the name, the names in
    ascending lexicographic order and each once. The entries of the
    directory are the names [os.listdir] returns, of regular files and of
    directories. The states covered are those in which the media path is
    a directory or nothing stands at it; where a regular file stands at
    the path or on the way to it, [os.listdir] raises an exception that
    the view does not catch. *)
Theorem get_videos_exact (fs : filesystem) :
  is_Some (Os.dir_at fs (Os.resolve VIDEO_DIR))
  ∨ Os.locate fs (Os.resolve VIDEO_DIR) = Os.Missing →
  ∃ names : list string,
    get_videos url_for fs =
      {| status := 200;
         payload := Json (JObject [("videos",
           JArray (JString <$>
             ((λ name, url_for "static" ("videos/" +:+ name)) <$> names)))]) |}
    ∧ Sorted String.le names
    ∧ NoDup names
    ∧ (∀ name, name ∈ names ↔ name ∈ entries fs ∧ whitelisted name)
    ∧ (∀ l, Os.listdir fs VIDEO_DIR = inr l → ∀ name, name ∈ l ↔ name ∈ entries fs).
Proof.
  intros Hst. exists (listed fs). split_and!.
  - destruct Hst as [Hd|Hm]; [by apply get_videos_dir|].
    apply get_videos_listed. unfold get_videos.
    by rewrite (listdir_missing _ _ Hm).
  - apply listed_Sorted.
  - apply listed_NoDup.
  - intros name. by rewrite elem_of_listed, allowed_file_whitelisted.
  - intros l ->%listdir_entries name. apply elem_of_elements.
Qed.

(** C4. When the media directory does not exist, [GET /] answers with
    status 500 and the fixed message, and [GET /api/videos] with status
    200 and the body [{"videos": []}]. *)
Theorem missing_directory_divergence (fs : filesystem) :
  Os.locate fs (Os.resolve VIDEO_DIR) = Os.Missing →
  (index url_for render_template fs).1 =
    {| status := 500;
       payload := Text "Error: Video directory not found. Please create it and add videos." |}
  ∧ get_videos url_for fs =
    {| status := 200; payload := Json (JObject [("videos", JArray [])]) |}.
Proof.
  intros H%listdir_missing. unfold index, get_videos. by rewrite H.
Qed.
End Listing.

Lemma get_videos_exact_witness :
  let fs := media_dir {[ "sub.mp4" := Os.Dir ∅; "a.PNG" := Os.File [];
                         "notes.txt" := Os.File [] ]} in
  (is_Some (Os.dir_at fs (Os.resolve VIDEO_DIR))
   ∨ Os.locate fs (Os.resolve VIDEO_DIR) = Os.Missing)
  ∧ ∃ names : list string,
      get_videos static_url fs =
        {| status := 200;
           payload := Json (JObject [("videos",
             JArray (JString <$>
               ((λ name, static_url "static" ("videos/" +:+ name)) <$> names)))]) |}
      ∧ Sorted String.le names
      ∧ NoDup names
      ∧ (∀ name, name ∈ names ↔ name ∈ entries fs ∧ whitelisted name)
      ∧ (∀ l, Os.listdir fs VIDEO_DIR = inr l → ∀ name, name ∈ l ↔ name ∈ entries fs).
Proof.
  intros fs.
  assert (is_Some (Os.dir_at fs (Os.resolve VIDEO_DIR))
          ∨ Os.locate fs (Os.resolve VIDEO_DIR) = Os.Missing) as H.
  { left. vm_compute. eauto. }
  split; [exact H|].
  exact (get_videos_exact static_url fs H).
Defined.

(** The listing on a small directory: case is ignored in the extension,
    kept in the order; a directory whose name passes the check is listed
    like a file. *)
Example get_videos_example :
  get_videos static_url
    (media_dir {[ "b.mp4" := Os.File []; "a.PNG" := Os.File [];
                  "notes.txt" := Os.File []; "mp4" := Os.File [];
                  "c.tar.gz" := Os.File []; "B.webm" := Os.File [];
                  "sub.mp4" := Os.Dir ∅; "old" := Os.Dir ∅ ]}) =
  jsonify [("videos", JArray [JString "/static/videos/B.webm";
                               JString "/static/videos/a.PNG";
                               JString "/static/videos/b.mp4";
                               JString "/static/videos/sub.mp4"])].
Proof. vm_compute. done. Qed.

(** An empty directory that exists: a page without entries, and an empty
    list. *)
Example empty_directory_example :
  index static_url page (media []) =
    ({| status := 200; payload := Text (page "index.html" []) |}, [])
  ∧ get_videos static_url (media []) = jsonify [("videos", JArray [])].
Proof. vm_compute. done. Qed.

Lemma missing_directory_divergence_witness :
  Os.locate (∅ : filesystem) (Os.resolve VIDEO_DIR) = Os.Missing ∧
  (index static_url page ∅).1 =
    {| status := 500;
       payload := Text "Error: Video directory not found. Please create it and add videos." |}
  ∧ get_videos static_url ∅ =
    {| status := 200; payload := Json (JObject [("videos", JArray [])]) |}.
Proof.
  split; [reflexivity|].
  apply (missing_directory_divergence static_url page ∅). reflexivity.
Defined.

(** The directory "static" without "videos" in it: the same answers. *)
Example missing_videos_example :
  let fs : filesystem := {[ "static" := Os.Dir ∅ ]} in
  Os.locate fs (Os.resolve VIDEO_DIR) = Os.Missing
  ∧ status (index static_url page fs).1 = 500
  ∧ get_videos static_url fs = jsonify [("videos", JArray [])].
Proof. vm_compute. done. Qed.

(** ** Rejected uploads *)

Section Rejections.
Variable nfkd_ascii : string → string.

(** C3. An upload whose file name has no whitelisted extension is answered
    with status 200 and a JSON body whose "success" field is false, and
    the file system is left as it was: nothing is written and no
    directory is created. *)
Theorem upload_not_whitelisted (files : gmap string FileStorage) (e : env)
    (fs : filesystem) (file : FileStorage) :
  files !! "file" = Some file →
  ¬ whitelisted (filename file) →
  let r := upload_file nfkd_ascii files e fs in
  status r.1 = 200
  ∧ (∃ fields, payload r.1 = Json (JObject fields))
  ∧ field "success" r.1 = Some (JBool false)
  ∧ r.2 = fs.
Proof.
  intros Hf Hw. rewrite <-allowed_file_whitelisted in Hw.
  apply not_true_is_false in Hw.
  destruct (decide (filename file = "")) as [Hn|Hn].
  - rewrite (upload_file_empty_name _ _ _ _ _ Hf Hn). simpl.
    split_and!; eauto.
  - rewrite (upload_file_rejected _ _ _ _ _ Hf Hn Hw). simpl.
    split_and!; eauto.
Qed.

(** C6. A request without a "file" part, and a request whose file part
    has an empty name, are answered with status 200 and the JSON body
    [{success: false, message: "No file selected"}]; nothing is written. *)
Theorem upload_no_file_selected (files : gmap string FileStorage) (e : env)
    (fs : filesystem) :
  files !! "file" = None ∨
  (∃ file, files !! "file" = Some file ∧ filename file = "") →
  upload_file nfkd_ascii files e fs =
    ({| status := 200;
        payload := Json (JObject [("success", JBool false);
                                  ("message", JString "No file selected")]) |},
     fs).
Proof.
  intros [H|(file & H & Hn)].
  - by apply upload_file_no_file.
  - by apply (upload_file_empty_name _ _ _ _ file).
Qed.
End Rejections.

Lemma upload_not_whitelisted_witness :
  upload_of "malware.exe" !! "file" =
    Some {| filename := "malware.exe"; stream := [] |}
  ∧ ¬ whitelisted "malware.exe"
  ∧ let r := upload_file ascii_ignore (upload_of "malware.exe")
               {| urandom := 7; fault := None; mkdir_fault := None |}
               (media ["a.mp4"]) in
    status r.1 = 200
    ∧ (∃ fields, payload r.1 = Json (JObject fields))
    ∧ field "success" r.1 = Some (JBool false)
    ∧ r.2 = media ["a.mp4"].
Proof.
  assert (¬ whitelisted "malware.exe") as Hw.
  { intros H%allowed_file_whitelisted. vm_compute in H. discriminate H. }
  split; [reflexivity|]. split; [exact Hw|].
  apply (upload_not_whitelisted ascii_ignore (upload_of "malware.exe")
           {| urandom := 7; fault := None; mkdir_fault := None |} (media ["a.mp4"])
           {| filename := "malware.exe"; stream := [] |}).
  - reflexivity.
  - exact Hw.
Defined.

Lemma upload_no_file_selected_witness :
  ((∅ : gmap string FileStorage) !! "file" = None ∨
   (∃ file, (∅ : gmap string FileStorage) !! "file" = Some file ∧ filename file = ""))
  ∧ upload_file ascii_ignore ∅ {| urandom := 7; fault := None; mkdir_fault := None |}
      (media ["a.mp4"]) =
      ({| status := 200;
          payload := Json (JObject [("success", JBool false);
                                    ("message", JString "No file selected")]) |},
       media ["a.mp4"]).
Proof.
  assert ((∅ : gmap string FileStorage) !! "file" = None ∨
   (∃ file, (∅ : gmap string FileStorage) !! "file" = Some file ∧ filename file = ""))
    as H by (left; reflexivity).
  split; [exact H|].
  exact (upload_no_file_selected ascii_ignore ∅
           {| urandom := 7; fault := None; mkdir_fault := None |}
           (media ["a.mp4"]) H).
Defined.

(** The second case of C6, run: a part with an empty name. *)
Example upload_empty_name_example :
  upload_file ascii_ignore (upload_of "")
    {| urandom := 7; fault := None; mkdir_fault := None |} ∅ =
  (no_file_selected, ∅).
Proof. reflexivity. Qed.

(** ** Accepted uploads *)

Lemma uploaded_neq_failed cause : upload_failed cause ≠ uploaded.
Proof. discriminate. Qed.

(** Where [os.makedirs] returned, the destination is a directory exactly
    when a directory of the folder had the stored name before. *)
Lemma name_free_dir_at denied (fs fs1 : filesystem) name :
  Os.makedirs denied fs UPLOAD_FOLDER = inr fs1 →
  name_free fs name ↔ Os.dir_at fs1 (Os.resolve UPLOAD_FOLDER ++ [name]) = None.
Proof.
  intros Hm%dir_at_makedirs. rewrite dir_at_snoc, Hm. fold (folder fs).
  unfold name_free. destruct (folder fs !! name) as [[x|ch]|]; naive_solver.
Qed.

Section Accepted.
Variable nfkd_ascii : string → string.
Variables (files : gmap string FileStorage) (e : env) (fs : filesystem).
Variable file : FileStorage.
Hypothesis Hacc : accepted files file.

Lemma upload_file_elsewhere d :
  d ≠ Os.resolve UPLOAD_FOLDER →
  Os.files_in (upload_file nfkd_ascii files e fs).2 d = Os.files_in fs d.
Proof. apply (effect_elsewhere _ _ _ _ _ _ (upload_file_effect _ _ _ _ _ Hacc)). Qed.

Lemma upload_file_other_names n :
  n ≠ stored_filename nfkd_ascii e file →
  Os.files_in (upload_file nfkd_ascii files e fs).2 (Os.resolve UPLOAD_FOLDER) !! n =
  Os.files_in fs (Os.resolve UPLOAD_FOLDER) !! n.
Proof. apply (effect_other_names _ _ _ _ _ _ (upload_file_effect _ _ _ _ _ Hacc)). Qed.

Lemma upload_file_success :
  (upload_file nfkd_ascii files e fs).1 = uploaded →
  Os.files_in (upload_file nfkd_ascii files e fs).2 (Os.resolve UPLOAD_FOLDER) =
  <[stored_filename nfkd_ascii e file := stream file]>
    (Os.files_in fs (Os.resolve UPLOAD_FOLDER)).
Proof.
  intros H.
  by apply (effect_success _ _ _ _ _ _ (upload_file_effect _ _ _ _ _ Hacc)).
Qed.

Lemma upload_file_succeeds (fs1 : filesystem) :
  Os.makedirs (mkdir_fault e) fs UPLOAD_FOLDER = inr fs1 →
  fault e = None →
  Os.dir_at fs1 (Os.resolve UPLOAD_FOLDER ++ [stored_filename nfkd_ascii e file]) = None →
  (upload_file nfkd_ascii files e fs).1 = uploaded.
Proof.
  intros Hm Hf Hd. apply (name_free_dir_at _ _ _ _ Hm) in Hd.
  rewrite (upload_file_accepted _ _ _ _ _ Hacc), Hm.
  rewrite (file_save_upload _ _ _ _ _ Hm), Hf.
  destruct (folder fs !! stored_filename nfkd_ascii e file) as [[x|ch]|] eqn:Hn;
    [done| |done].
  by destruct (Hd ch).
Qed.
End Accepted.

(** Tokens drawn from different random bits give different stored names,
    whatever the file names. *)
Lemma stored_filename_fresh nfkd_ascii e e' file file' :
  Uuid.uuid_int (urandom e') ≠ Uuid.uuid_int (urandom e) →
  Uuid.uuid4 (urandom e') ≠ Uuid.uuid4 (urandom e)
  ∧ stored_filename nfkd_ascii e' file' ≠ stored_filename nfkd_ascii e file.
Proof.
  intros Hne. split.
  - by intros H%uuid4_inj.
  - unfold stored_filename. intros [H _]%app_inj_length.
    + by apply uuid4_inj in H.
    + by rewrite !uuid4_length.
Qed.

Section AcceptedClaims.
Variable nfkd_ascii : string → string.

(** C2, as the code has it. For an accepted upload the stored name is the
    token drawn by [uuid4], an underscore and the sanitised original name:
    no other name of the upload folder changes, a success answer means the
    stream is stored under that name, and the upload succeeds when
    [os.makedirs] returns, the device reports no fault and the name is not
    taken by a directory. The token is drawn anew at each upload and does
    not depend on the file name: it equals the token of another upload
    exactly when the two draws agree on the bits [uuid4] keeps, and where
    they differ the stored names differ too, even for the same original
    name. Nothing checks a token against those of earlier uploads. *)
Theorem upload_stored_name (files : gmap string FileStorage) (e : env)
    (fs : filesystem) (file : FileStorage) :
  accepted files file →
  let token := Uuid.uuid4 (urandom e) in
  let name := token +:+ "_" +:+ secure_filename nfkd_ascii (filename file) in
  let dir := Os.resolve UPLOAD_FOLDER in
  let r := upload_file nfkd_ascii files e fs in
  (∀ n, n ≠ name → Os.files_in r.2 dir !! n = Os.files_in fs dir !! n)
  ∧ (r.1 = uploaded →
     Os.files_in r.2 dir = <[name := stream file]> (Os.files_in fs dir))
  ∧ (∀ fs1 : filesystem,
       Os.makedirs (mkdir_fault e) fs UPLOAD_FOLDER = inr fs1 →
       fault e = None → Os.dir_at fs1 (dir ++ [name]) = None →
       r.1 = uploaded)
  ∧ (∀ e',
       Uuid.uuid4 (urandom e') = token ↔
       random_bits (urandom e') = random_bits (urandom e))
  ∧ (∀ e' file',
       random_bits (urandom e') ≠ random_bits (urandom e) →
       Uuid.uuid4 (urandom e') +:+ "_" +:+
         secure_filename nfkd_ascii (filename file') ≠ name).
Proof.
  intros Hacc token name dir r. split_and!.
  - intros n Hn. by apply (upload_file_other_names nfkd_ascii files e fs file Hacc).
  - apply (upload_file_success nfkd_ascii files e fs file Hacc).
  - intros fs1. apply (upload_file_succeeds nfkd_ascii files e fs file Hacc).
  - intros e'. apply uuid4_random_bits.
  - intros e' file' Hne.
    apply (stored_filename_fresh nfkd_ascii e e' file file').
    by rewrite uuid_int_random_bits.
Qed.

(** C5. For an accepted upload, whatever the client sent as file name, the
    path handed to [file.save] names a direct child of the upload folder,
    and no file of any other directory is created, changed or removed. *)
Theorem upload_confined (files : gmap string FileStorage) (e : env)
    (fs : filesystem) (file : FileStorage) :
  accepted files file →
  let name := Uuid.uuid4 (urandom e) +:+ "_" +:+
              secure_filename nfkd_ascii (filename file) in
  Py.contains "/" name = false
  ∧ Os.resolve (path_join UPLOAD_FOLDER name) = Os.resolve UPLOAD_FOLDER ++ [name]
  ∧ ∀ d, d ≠ Os.resolve UPLOAD_FOLDER →
      Os.files_in (upload_file nfkd_ascii files e fs).2 d = Os.files_in fs d.
Proof.
  intros Hacc name. split_and!.
  - apply stored_filename_no_sep.
  - apply resolve_file_path.
  - intros d Hd. by apply (upload_file_elsewhere nfkd_ascii files e fs file Hacc).
Qed.

(** C7. For an accepted upload for which [os.makedirs] has returned, the
    answer follows the outcome of the write:
    [{success: true, message: "File uploaded successfully!"}] when it
    succeeds, [{success: false, message: "Upload failed: " + str(e)}] when
    it raises [e]; a fault [f] of the device is reported with its
    description. The status is 200 in both cases. *)
Theorem upload_write_outcome (files : gmap string FileStorage) (e : env)
    (fs fs1 : filesystem) (file : FileStorage) :
  accepted files file →
  Os.makedirs (mkdir_fault e) fs UPLOAD_FOLDER = inr fs1 →
  let dst := path_join UPLOAD_FOLDER
               (Uuid.uuid4 (urandom e) +:+ "_" +:+
                secure_filename nfkd_ascii (filename file)) in
  let w := Os.file_save fs1 dst (stream file) (fault e) in
  let r := (upload_file nfkd_ascii files e fs).1 in
  match w.1 with
  | inr _ =>
      r = jsonify [("success", JBool true);
                   ("message", JString "File uploaded successfully!")]
  | inl ex =>
      r = jsonify [("success", JBool false);
                   ("message", JString ("Upload failed: " +:+ Os.str_exn ex))]
  end
  ∧ (∀ f, fault e = Some f → Os.dir_at fs1 (Os.resolve dst) = None →
       w.1 = inl (Os.OSError (Os.strerror f)))
  ∧ status r = 200.
Proof.
  intros Hacc Hm dst w r.
  assert (match w.1 with
          | inr _ => r = uploaded
          | inl ex => r = upload_failed (Os.str_exn ex)
          end) as Hr.
  { unfold r, w, dst. rewrite (upload_file_accepted _ _ _ _ _ Hacc), Hm.
    unfold file_path, stored_filename.
    by destruct (Os.file_save _ _ _ _) as [[ex|[]] fs']. }
  split_and!.
  - exact Hr.
  - intros f Hf Hd. unfold w, dst.
    pose proof (file_save_upload nfkd_ascii e fs fs1 file Hm) as Hs.
    pose proof (resolve_file_path nfkd_ascii e file) as Hp.
    unfold file_path, stored_filename in Hs, Hp. rewrite Hs, Hf.
    unfold dst in Hd. rewrite Hp in Hd.
    apply (name_free_dir_at _ _ _ _ Hm) in Hd.
    destruct (folder fs !! _) as [[x|ch]|] eqn:Hn; [done| |done].
    by destruct (Hd ch).
  - destruct w.1; by rewrite Hr.
Qed.
End AcceptedClaims.

Lemma accepted_upload_of name :
  name ≠ "" → allowed_file name = true →
  accepted (upload_of name) {| filename := name; stream := [] |}.
Proof. intros Hn Ha. split; [|done]. apply lookup_singleton_eq. Qed.

Lemma upload_stored_name_witness :
  accepted (upload_of "clip.mp4") {| filename := "clip.mp4"; stream := [] |}
  ∧ let e := {| urandom := 5; fault := None; mkdir_fault := None |} in
    let token := Uuid.uuid4 (urandom e) in
    let name := token +:+ "_" +:+ secure_filename ascii_ignore "clip.mp4" in
    let dir := Os.resolve UPLOAD_FOLDER in
    let r := upload_file ascii_ignore (upload_of "clip.mp4") e ∅ in
    (∀ n, n ≠ name → Os.files_in r.2 dir !! n = Os.files_in ∅ dir !! n)
    ∧ (r.1 = uploaded → Os.files_in r.2 dir = <[name := []]> (Os.files_in ∅ dir))
    ∧ (∀ fs1 : filesystem,
         Os.makedirs (mkdir_fault e) ∅ UPLOAD_FOLDER = inr fs1 →
         fault e = None → Os.dir_at fs1 (dir ++ [name]) = None →
         r.1 = uploaded)
    ∧ (∀ e',
         Uuid.uuid4 (urandom e') = token ↔
         random_bits (urandom e') = random_bits (urandom e))
    ∧ (∀ e' file',
         random_bits (urandom e') ≠ random_bits (urandom e) →
         Uuid.uuid4 (urandom e') +:+ "_" +:+
           secure_filename ascii_ignore (filename file') ≠ name).
Proof.
  assert (accepted (upload_of "clip.mp4") {| filename := "clip.mp4"; stream := [] |})
    as H by (apply accepted_upload_of; [discriminate|reflexivity]).
  split; [exact H|].
  exact (upload_stored_name ascii_ignore (upload_of "clip.mp4")
           {| urandom := 5; fault := None; mkdir_fault := None |} ∅
           {| filename := "clip.mp4"; stream := [] |} H).
Defined.

(** C2 as stated fails where a draw is repeated in the bits [uuid4] keeps:
    two uploads of [clip.mp4] whose random bytes differ only in a bit that
    the variant overwrites are both accepted and answered as successes,
    get the same token, and the folder holds one file afterwards. *)
Lemma repeated_draw_same_token :
  let e1 := {| urandom := 5; fault := None; mkdir_fault := None |} in
  let e2 := {| urandom := 5 + 2 ^ 62; fault := None; mkdir_fault := None |} in
  let r1 := upload_file ascii_ignore (upload_of "clip.mp4") e1 ∅ in
  let r2 := upload_file ascii_ignore (upload_of "clip.mp4") e2 r1.2 in
  urandom e1 ≠ urandom e2
  ∧ r1.1 = uploaded ∧ r2.1 = uploaded
  ∧ Uuid.uuid4 (urandom e1) = "00000000-0000-4000-8000-000000000005"
  ∧ Uuid.uuid4 (urandom e2) = Uuid.uuid4 (urandom e1)
  ∧ Os.listdir r2.2 UPLOAD_FOLDER =
      inr ["00000000-0000-4000-8000-000000000005_clip.mp4"].
Proof. vm_compute. split_and!; done. Qed.

(** The example of the specification: [clip.mp4] is stored as the token
    followed by [_clip.mp4], and a second upload of the same file, with
    other random bits, is stored next to the first. *)
Example upload_clip_twice :
  let e1 := {| urandom := 5; fault := None; mkdir_fault := None |} in
  let e2 := {| urandom := 6; fault := None; mkdir_fault := None |} in
  let r1 := upload_file ascii_ignore (upload_of "clip.mp4") e1 ∅ in
  let r2 := upload_file ascii_ignore (upload_of "clip.mp4") e2 r1.2 in
  r1.1 = uploaded ∧ r2.1 = uploaded
  ∧ Os.listdir r1.2 UPLOAD_FOLDER = inr [Uuid.uuid4 5 +:+ "_clip.mp4"]
  ∧ Os.listdir r2.2 UPLOAD_FOLDER =
      inr [Uuid.uuid4 5 +:+ "_clip.mp4"; Uuid.uuid4 6 +:+ "_clip.mp4"].
Proof. vm_compute. done. Qed.

Lemma upload_confined_witness :
  accepted (upload_of "../../etc/passwd.mp4")
    {| filename := "../../etc/passwd.mp4"; stream := [] |}
  ∧ let e := {| urandom := 5; fault := None; mkdir_fault := None |} in
    let fs : filesystem := {[ "etc" := Os.Dir ∅ ]} in
    let name := Uuid.uuid4 (urandom e) +:+ "_" +:+
                secure_filename ascii_ignore "../../etc/passwd.mp4" in
    Py.contains "/" name = false
    ∧ Os.resolve (path_join UPLOAD_FOLDER name) = Os.resolve UPLOAD_FOLDER ++ [name]
    ∧ ∀ d, d ≠ Os.resolve UPLOAD_FOLDER →
        Os.files_in (upload_file ascii_ignore (upload_of "../../etc/passwd.mp4") e fs).2 d =
        Os.files_in fs d.
Proof.
  assert (accepted (upload_of "../../etc/passwd.mp4")
            {| filename := "../../etc/passwd.mp4"; stream := [] |})
    as H by (apply accepted_upload_of; [discriminate|reflexivity]).
  split; [exact H|].
  exact (upload_confined ascii_ignore (upload_of "../../etc/passwd.mp4")
           {| urandom := 5; fault := None; mkdir_fault := None |}
           {[ "etc" := Os.Dir ∅ ]}
           {| filename := "../../etc/passwd.mp4"; stream := [] |} H).
Defined.

(** The example of the specification, run: the traversal sequences are
    gone from the stored name, and the file lands in the upload folder;
    joined as it came, the client's name would have left the folder. *)
Example upload_traversal :
  let e := {| urandom := 5; fault := None; mkdir_fault := None |} in
  let fs : filesystem := {[ "etc" := Os.Dir ∅ ]} in
  let r := upload_file ascii_ignore (upload_of "../../etc/passwd.mp4") e fs in
  secure_filename ascii_ignore "../../etc/passwd.mp4" = "etc_passwd.mp4"
  ∧ r.1 = uploaded
  ∧ Os.listdir r.2 UPLOAD_FOLDER = inr [Uuid.uuid4 5 +:+ "_etc_passwd.mp4"]
  ∧ Os.listdir r.2 "etc" = inr []
  ∧ Os.resolve (path_join UPLOAD_FOLDER "../../etc/passwd.mp4") = ["etc"; "passwd.mp4"].
Proof. vm_compute. done. Qed.

Lemma upload_write_outcome_witness :
  let e := {| urandom := 5;
              fault := Some {| Os.strerror := "[Errno 28] No space left on device";
                               Os.residue := None |};
              mkdir_fault := None |} in
  let fs1 : filesystem := media [] in
  accepted (upload_of "clip.mp4") {| filename := "clip.mp4"; stream := [] |}
  ∧ Os.makedirs (mkdir_fault e) ∅ UPLOAD_FOLDER = inr fs1
  ∧ let dst := path_join UPLOAD_FOLDER
                 (Uuid.uuid4 (urandom e) +:+ "_" +:+
                  secure_filename ascii_ignore "clip.mp4") in
    let w := Os.file_save fs1 dst [] (fault e) in
    let r := (upload_file ascii_ignore (upload_of "clip.mp4") e ∅).1 in
    match w.1 with
    | inr _ =>
        r = jsonify [("success", JBool true);
                     ("message", JString "File uploaded successfully!")]
    | inl ex =>
        r = jsonify [("success", JBool false);
                     ("message", JString ("Upload failed: " +:+ Os.str_exn ex))]
    end
    ∧ (∀ f, fault e = Some f → Os.dir_at fs1 (Os.resolve dst) = None →
         w.1 = inl (Os.OSError (Os.strerror f)))
    ∧ status r = 200.
Proof.
  intros e fs1.
  assert (accepted (upload_of "clip.mp4") {| filename := "clip.mp4"; stream := [] |})
    as H by (apply accepted_upload_of; [discriminate|reflexivity]).
  assert (Os.makedirs (mkdir_fault e) ∅ UPLOAD_FOLDER = inr fs1) as Hm
    by (vm_compute; reflexivity).
  split; [exact H|]. split; [exact Hm|].
  exact (upload_write_outcome ascii_ignore (upload_of "clip.mp4") e ∅ fs1
           {| filename := "clip.mp4"; stream := [] |} H Hm).
Defined.

(** A full disk, run: the answer carries the cause and status 200. *)
Example upload_disk_full :
  (upload_file ascii_ignore (upload_of "clip.mp4")
     {| urandom := 5;
        fault := Some {| Os.strerror := "[Errno 28] No space left on device";
                         Os.residue := None |};
        mkdir_fault := None |} ∅).1 =
  {| status := 200;
     payload := Json (JObject
       [("success", JBool false);
        ("message", JString "Upload failed: [Errno 28] No space left on device")]) |}.
Proof. vm_compute. done. Qed.

(** ** The body size limit *)

Lemma MAX_CONTENT_LENGTH_bytes : MAX_CONTENT_LENGTH = (100 * 2 ^ 20)%N.
Proof. reflexivity. Qed.

Section SizeLimit.
Variable nfkd_ascii : string → string.

(** A request within the limit is handed to the view as it is. *)
Lemma upload_route_within req e fs :
  (content_length req ≤ 100 * 2 ^ 20)%N →
  upload_route nfkd_ascii req e fs = upload_file nfkd_ascii (files req) e fs.
Proof.
  intros H. unfold upload_route, parse_files.
  rewrite <-MAX_CONTENT_LENGTH_bytes in H.
  by apply N.ltb_ge in H as ->.
Qed.

(** C9. A request to the upload route whose body is longer than 100 MiB is
    answered with status 413 where the body is read, before anything of
    the upload view is done: the form is not parsed, the file system is
    untouched, and the answer is none the view gives. *)
Theorem oversized_upload_rejected (req : request) (e : env) (fs : filesystem) :
  (100 * 2 ^ 20 < content_length req)%N →
  parse_files req = None
  ∧ upload_route nfkd_ascii req e fs = (request_entity_too_large, fs)
  ∧ status request_entity_too_large = 413
  ∧ ∀ files' e' fs',
      (upload_file nfkd_ascii files' e' fs').1 ≠ (upload_route nfkd_ascii req e fs).1.
Proof.
  intros H. rewrite <-MAX_CONTENT_LENGTH_bytes in H.
  assert (parse_files req = None) as Hp.
  { unfold parse_files. by apply N.ltb_lt in H as ->. }
  unfold upload_route. rewrite Hp. split_and!; try done.
  intros files' e' fs' Heq.
  destruct (upload_file_status nfkd_ascii files' e' fs') as [Hs|Hs];
    rewrite Heq in Hs; discriminate Hs.
Qed.
End SizeLimit.

Lemma oversized_upload_rejected_witness :
  let req := {| content_length := 100 * 2 ^ 20 + 1; files := upload_of "clip.mp4" |} in
  let e := {| urandom := 5; fault := None; mkdir_fault := None |} in
  (100 * 2 ^ 20 < content_length req)%N
  ∧ parse_files req = None
  ∧ upload_route ascii_ignore req e ∅ = (request_entity_too_large, ∅)
  ∧ status request_entity_too_large = 413
  ∧ ∀ files' e' fs',
      (upload_file ascii_ignore files' e' fs').1 ≠ (upload_route ascii_ignore req e ∅).1.
Proof.
  intros req e.
  assert (100 * 2 ^ 20 < content_length req)%N as H by reflexivity.
  split; [exact H|].
  exact (oversized_upload_rejected ascii_ignore req e ∅ H).
Defined.

(** At the limit itself the request is served. *)
Example upload_at_limit :
  (upload_route ascii_ignore
     {| content_length := 100 * 1024 * 1024; files := upload_of "clip.mp4" |}
     {| urandom := 5; fault := None; mkdir_fault := None |} ∅).1 = uploaded.
Proof. vm_compute. done. Qed.

(** ** Names without a dot *)

Lemma allowed_file_no_dot name :
  Py.contains "." name = false → allowed_file name = false.
Proof. intros H. unfold allowed_file. by rewrite H. Qed.

Section NoDot.
Variable nfkd_ascii : string → string.
Variable url_for : string → string → string.
Variable render_template : string → list string → string.

(** C10, as the code has it. A name without a dot never passes the
    extension check. Such a name is in neither listing: both views build
    their URLs from the same names, of which it is none. An upload under
    such a name is refused and nothing is written: as an invalid file
    type when the name is not empty, as "No file selected" when it is
    empty. *)
Theorem dotless_name_refused (name : string) :
  Py.contains "." name = false →
  allowed_file name = false
  ∧ (∀ fs : filesystem,
       (name ∉ listed fs)
       ∧ (status (get_videos url_for fs) = 200 →
          get_videos url_for fs =
            jsonify [("videos", JArray (JString <$>
              ((λ n, url_for "static" ("videos/" +:+ n)) <$> listed fs)))])
       ∧ (is_Some (Os.dir_at fs (Os.resolve VIDEO_DIR)) →
          (index url_for render_template fs).1 =
            {| status := 200;
               payload := Text (render_template "index.html"
                 ((λ n, url_for "static" ("videos/" +:+ n)) <$> listed fs)) |}))
  ∧ (∀ (files : gmap string FileStorage) (e : env) (fs : filesystem) file,
       files !! "file" = Some file → filename file = name →
       upload_file nfkd_ascii files e fs =
         (if String.eqb name "" then no_file_selected else invalid_file_type, fs)).
Proof.
  intros Hdot. pose proof (allowed_file_no_dot name Hdot) as Hna.
  split_and!; [done|..].
  - intros fs. split_and!.
    + rewrite elem_of_listed. intros [_ H]. congruence.
    + apply get_videos_listed.
    + intros H. by rewrite index_listed.
  - intros files e fs file Hf <-.
    destruct (String.eqb_spec (filename file) "") as [Hn|Hn].
    + by apply (upload_file_empty_name _ _ _ _ file).
    + by apply (upload_file_rejected _ _ _ _ file).
Qed.
End NoDot.

Lemma dotless_name_refused_witness :
  Py.contains "." "mp4" = false
  ∧ allowed_file "mp4" = false
  ∧ (∀ fs : filesystem,
       ("mp4" ∉ listed fs)
       ∧ (status (get_videos static_url fs) = 200 →
          get_videos static_url fs =
            jsonify [("videos", JArray (JString <$>
              ((λ n, static_url "static" ("videos/" +:+ n)) <$> listed fs)))])
       ∧ (is_Some (Os.dir_at fs (Os.resolve VIDEO_DIR)) →
          (index static_url page fs).1 =
            {| status := 200;
               payload := Text (page "index.html"
                 ((λ n, static_url "static" ("videos/" +:+ n)) <$> listed fs)) |}))
  ∧ (∀ (files : gmap string FileStorage) (e : env) (fs : filesystem) file,
       files !! "file" = Some file → filename file = "mp4" →
       upload_file ascii_ignore files e fs =
         (if String.eqb "mp4" "" then no_file_selected else invalid_file_type, fs)).
Proof.
  split; [reflexivity|].
  apply (dotless_name_refused ascii_ignore static_url page "mp4"). reflexivity.
Defined.

(** The example of the claim, run: a file named [mp4] is not listed and is
    not accepted. *)
Example dotless_name_example :
  get_videos static_url (media ["mp4"; "a.mp4"]) =
    jsonify [("videos", JArray [JString "/static/videos/a.mp4"])]
  ∧ upload_file ascii_ignore (upload_of "mp4")
      {| urandom := 5; fault := None; mkdir_fault := None |} ∅ =
    (invalid_file_type, ∅).
Proof. vm_compute. done. Qed.

(** C10 as stated fails at the empty name: it holds no dot, and an upload
    under it is refused as "No file selected", which is not the answer for
    an invalid file type. *)
Lemma empty_name_not_invalid_type :
  Py.contains "." "" = false
  ∧ upload_of "" !! "file" = Some {| filename := ""; stream := [] |}
  ∧ (upload_file ascii_ignore (upload_of "")
       {| urandom := 5; fault := None; mkdir_fault := None |} ∅).1 =
      no_file_selected
  ∧ (upload_file ascii_ignore (upload_of "")
       {| urandom := 5; fault := None; mkdir_fault := None |} ∅).1 ≠
      invalid_file_type.
Proof. split_and!; [reflexivity..|discriminate]. Qed.

(** ** Upload, then listing *)

Lemma rpartition_prefix c p s :
  Py.contains c p = false →
  Py.rpartition c (p +:+ s) =
  (λ ht, (p +:+ ht.1, ht.2)) <$> Py.rpartition c s.
Proof.
  induction p as [|a p IH]; simpl.
  - intros _. rewrite app_nil_l. by destruct (Py.rpartition c s) as [[h t]|].
  - destruct (Ascii.eqb a c) eqn:Ha; [done|]. intros H.
    rewrite (IH H). by destruct (Py.rpartition c s) as [[h t]|].
Qed.

(** A prefix without a dot does not change the verdict of the extension
    check. *)
Lemma allowed_file_prefix p s :
  Py.contains "." p = false → allowed_file (p +:+ s) = allowed_file s.
Proof.
  intros Hp. unfold allowed_file, Py.rsplit1.
  rewrite contains_app, Hp, rpartition_prefix by done. simpl.
  by destruct (Py.rpartition "." s) as [[h t]|].
Qed.

Lemma allowed_stored_filename nfkd_ascii e file :
  allowed_file (stored_filename nfkd_ascii e file) =
  allowed_file (secure_filename nfkd_ascii (filename file)).
Proof.
  unfold stored_filename.
  rewrite allowed_file_prefix by apply uuid4_no_dot.
  by apply allowed_file_prefix.
Qed.

(** X13. After a success answer the stored file is in the scanned
    directory; it is listed exactly when the sanitised name still passes
    the extension check. *)
Lemma uploaded_listed_iff (nfkd_ascii : string → string)
    (files : gmap string FileStorage) (e : env)
    (fs : filesystem) (file : FileStorage) :
  accepted files file →
  (upload_file nfkd_ascii files e fs).1 = uploaded →
  stored_filename nfkd_ascii e file ∈ entries (upload_file nfkd_ascii files e fs).2
  ∧ (stored_filename nfkd_ascii e file ∈ listed (upload_file nfkd_ascii files e fs).2
     ↔ allowed_file (secure_filename nfkd_ascii (filename file)) = true).
Proof.
  intros Hacc Hok.
  destruct (effect_success _ _ _ _ _ _ (upload_file_effect nfkd_ascii _ _ _ _ Hacc) Hok)
    as (_ & Hent & _).
  assert (stored_filename nfkd_ascii e file ∈
          entries (upload_file nfkd_ascii files e fs).2) as He.
  { rewrite Hent, elem_of_union, elem_of_singleton. by left. }
  split; [done|].
  rewrite elem_of_listed, allowed_stored_filename. tauto.
Qed.

(** C8, at an input where the code departs from it. The upload of a file
    named [.mp4] is accepted and answered as a success; it is stored in the
    scanned directory as the token followed by [_mp4], a name without a
    dot, and neither listing shows it. *)
Theorem upload_dot_name_unlisted :
  let e := {| urandom := 5; fault := None; mkdir_fault := None |} in
  let r := upload_file ascii_ignore (upload_of ".mp4") e ∅ in
  allowed_file ".mp4" = true
  ∧ r.1 = uploaded
  ∧ secure_filename ascii_ignore ".mp4" = "mp4"
  ∧ Os.listdir r.2 VIDEO_DIR = inr [Uuid.uuid4 5 +:+ "_mp4"]
  ∧ get_videos static_url r.2 = jsonify [("videos", JArray [])]
  ∧ (index static_url page r.2).1 =
      {| status := 200; payload := Text (page "index.html" []) |}.
Proof. vm_compute. done. Qed.

(** The same upload with a stem is listed. *)
Example upload_clip_listed :
  let e := {| urandom := 5; fault := None; mkdir_fault := None |} in
  let r := upload_file ascii_ignore (upload_of "clip.mp4") e ∅ in
  r.1 = uploaded
  ∧ get_videos static_url r.2 =
      jsonify [("videos",
        JArray [JString ("/static/videos/" +:+ Uuid.uuid4 5 +:+ "_clip.mp4")])].
Proof. vm_compute. done. Qed.


(** * Further properties of the views *)

(** ** The extension check *)

Lemma allowed_file_ext stem ext :
  Py.contains "." ext = false →
  allowed_file (stem +:+ "." +:+ ext) =
  bool_decide (Py.lower ext ∈ ALLOWED_EXTENSIONS).
Proof.
  intros Hext. unfold allowed_file, Py.rsplit1.
  assert (Py.rpartition "." (stem +:+ "." +:+ ext) = Some (stem, ext)) as ->.
  { by apply rpartition_Some. }
  rewrite contains_app. simpl. by rewrite orb_true_r.
Qed.

(** X1. Only what follows the last dot counts: a name made of any stem, a
    dot and a dot-free extension passes the check exactly when the
    extension, lowercased, is a whitelisted word. Earlier extensions and
    the stem (which may be empty) play no part. *)
Theorem allowed_file_last_extension (stem ext : string) :
  Py.contains "." ext = false →
  (allowed_file (stem +:+ "." +:+ ext) = true ↔ Py.lower ext ∈ whitelist).
Proof.
  intros Hext. rewrite allowed_file_ext by done.
  by rewrite bool_decide_eq_true, elem_of_ALLOWED_EXTENSIONS.
Qed.

Lemma allowed_file_last_extension_witness :
  Py.contains "." "MP4" = false
  ∧ (allowed_file ("holiday.exe" +:+ "." +:+ "MP4") = true ↔
     Py.lower "MP4" ∈ whitelist).
Proof.
  split; [reflexivity|].
  apply (allowed_file_last_extension "holiday.exe" "MP4"). reflexivity.
Defined.

(** X2. The check ignores the case of the extension and everything before
    the last dot: two names whose extensions agree once lowercased get the
    same verdict. *)
Theorem allowed_file_ignores_case (stem stem' ext ext' : string) :
  Py.contains "." ext = false → Py.contains "." ext' = false →
  Py.lower ext = Py.lower ext' →
  allowed_file (stem +:+ "." +:+ ext) = allowed_file (stem' +:+ "." +:+ ext').
Proof. intros H H' Hl. by rewrite !allowed_file_ext, Hl. Qed.

Lemma allowed_file_ignores_case_witness :
  Py.contains "." "JpEg" = false ∧ Py.contains "." "jpeg" = false
  ∧ Py.lower "JpEg" = Py.lower "jpeg"
  ∧ allowed_file ("a" +:+ "." +:+ "JpEg") = allowed_file ("b.c" +:+ "." +:+ "jpeg").
Proof.
  split_and!; [reflexivity..|].
  apply (allowed_file_ignores_case "a" "b.c" "JpEg" "jpeg"); reflexivity.
Defined.

(** X3. A name that ends with a dot has an empty extension and never passes
    the check, whatever precedes the dot. *)
Theorem allowed_file_trailing_dot (stem : string) :
  allowed_file (stem +:+ ".") = false.
Proof.
  rewrite <-(app_nil_r (stem +:+ ".")), app_assoc'.
  by rewrite allowed_file_ext.
Qed.

(** ** The scan *)

Section Scan.
Variable url_for : string → string → string.
Variable render_template : string → list string → string.

(** X4. When the media directory exists, [GET /] answers with status 200
    and the page rendered from "index.html" with, for exactly the entries
    of the directory whose extension lowercased is in the whitelist, the
    URL built from "videos/" and the name, in ascending order of the names,
    each once; nothing is printed. The entries are those [os.listdir]
    returns: regular files and directories. *)
Theorem index_exact (fs : filesystem) :
  is_Some (Os.dir_at fs (Os.resolve VIDEO_DIR)) →
  ∃ names : list string,
    index url_for render_template fs =
      ({| status := 200;
          payload := Text (render_template "index.html"
            ((λ name, url_for "static" ("videos/" +:+ name)) <$> names)) |}, [])
    ∧ Sorted String.le names
    ∧ NoDup names
    ∧ (∀ name, name ∈ names ↔ name ∈ entries fs ∧ whitelisted name)
    ∧ (∀ l, Os.listdir fs VIDEO_DIR = inr l → ∀ name, name ∈ l ↔ name ∈ entries fs).
Proof.
  intros Hd. exists (listed fs). split_and!.
  - by apply index_listed.
  - apply listed_Sorted.
  - apply listed_NoDup.
  - intros name. by rewrite elem_of_listed, allowed_file_whitelisted.
  - intros l ->%listdir_entries name. apply elem_of_elements.
Qed.

(** X5. The page and the JSON listing show the same URLs in the same
    order: on a file system where the media directory exists, the list
    handed to the template is the list of the "videos" field. *)
Theorem views_agree (fs : filesystem) :
  is_Some (Os.dir_at fs (Os.resolve VIDEO_DIR)) →
  ∃ urls : list string,
    (index url_for render_template fs).1 =
      {| status := 200; payload := Text (render_template "index.html" urls) |}
    ∧ get_videos url_for fs = jsonify [("videos", JArray (JString <$> urls))].
Proof.
  intros [ch Hd%listdir_dir]. unfold index, get_videos. rewrite Hd. simpl. eauto.
Qed.

(** X19. A directory inside the media directory is listed like a file
    when its name passes the extension check: the scan does not ask what
    kind of entry a name stands for. *)
Theorem subdirectory_listed (fs children sub : filesystem) (name : string) :
  Os.dir_at fs (Os.resolve VIDEO_DIR) = Some children →
  children !! name = Some (Os.Dir sub) →
  allowed_file name = true →
  name ∈ listed fs
  ∧ get_videos url_for fs =
      jsonify [("videos", JArray (JString <$>
        ((λ n, url_for "static" ("videos/" +:+ n)) <$> listed fs)))].
Proof.
  intros Hd Hn Ha. split.
  - rewrite elem_of_listed. split; [|done]. unfold entries. rewrite Hd.
    apply elem_of_dom. eauto.
  - apply get_videos_dir. eauto.
Qed.

(** X20. Where a regular file stands at the media path, or at "static",
    [os.listdir] raises [NotADirectoryError], which neither view catches:
    both answer with status 500, the page without its fixed message and
    without printing. *)
Theorem regular_file_in_the_way (fs : filesystem) :
  (∃ data, fs !! "static" = Some (Os.File data))
  ∨ (∃ (children : filesystem) data,
       fs !! "static" = Some (Os.Dir children)
       ∧ children !! "videos" = Some (Os.File data)) →
  Os.listdir fs VIDEO_DIR = inl (Os.NotADirectoryError VIDEO_DIR)
  ∧ index url_for render_template fs = (internal_server_error, [])
  ∧ get_videos url_for fs = internal_server_error
  ∧ status internal_server_error = 500.
Proof.
  intros H.
  assert (Os.listdir fs VIDEO_DIR = inl (Os.NotADirectoryError VIDEO_DIR)) as Hl.
  { unfold Os.listdir. rewrite resolve_VIDEO_DIR. simpl.
    destruct H as [[data ->]|(children & data & -> & ->)]; done. }
  unfold index, get_videos. by rewrite Hl.
Qed.
End Scan.

Lemma index_exact_witness :
  let fs := media_dir {[ "b.mp4" := Os.File []; "a.PNG" := Os.File [];
                         "notes.txt" := Os.File []; "sub.gif" := Os.Dir ∅ ]} in
  is_Some (Os.dir_at fs (Os.resolve VIDEO_DIR))
  ∧ ∃ names : list string,
      index static_url page fs =
        ({| status := 200;
            payload := Text (page "index.html"
              ((λ name, static_url "static" ("videos/" +:+ name)) <$> names)) |}, [])
      ∧ Sorted String.le names
      ∧ NoDup names
      ∧ (∀ name, name ∈ names ↔ name ∈ entries fs ∧ whitelisted name)
      ∧ (∀ l, Os.listdir fs VIDEO_DIR = inr l → ∀ name, name ∈ l ↔ name ∈ entries fs).
Proof.
  intros fs.
  assert (is_Some (Os.dir_at fs (Os.resolve VIDEO_DIR))) as H by (vm_compute; eauto).
  split; [exact H|].
  exact (index_exact static_url page fs H).
Defined.

Lemma views_agree_witness :
  is_Some (Os.dir_at (media ["b.mp4"; "a.PNG"]) (Os.resolve VIDEO_DIR))
  ∧ ∃ urls : list string,
      (index static_url page (media ["b.mp4"; "a.PNG"])).1 =
        {| status := 200; payload := Text (page "index.html" urls) |}
      ∧ get_videos static_url (media ["b.mp4"; "a.PNG"]) =
        jsonify [("videos", JArray (JString <$> urls))].
Proof.
  assert (is_Some (Os.dir_at (media ["b.mp4"; "a.PNG"]) (Os.resolve VIDEO_DIR)))
    as H by (vm_compute; eauto).
  split; [exact H|].
  exact (views_agree static_url page (media ["b.mp4"; "a.PNG"]) H).
Defined.

Lemma subdirectory_listed_witness :
  let children : filesystem := {[ "sub.mp4" := Os.Dir ∅; "a.txt" := Os.File [] ]} in
  let fs := media_dir children in
  Os.dir_at fs (Os.resolve VIDEO_DIR) = Some children
  ∧ children !! "sub.mp4" = Some (Os.Dir ∅)
  ∧ allowed_file "sub.mp4" = true
  ∧ "sub.mp4" ∈ listed fs
  ∧ get_videos static_url fs =
      jsonify [("videos", JArray (JString <$>
        ((λ n, static_url "static" ("videos/" +:+ n)) <$> listed fs)))].
Proof.
  intros children fs.
  assert (Os.dir_at fs (Os.resolve VIDEO_DIR) = Some children) as H1
    by (vm_compute; reflexivity).
  assert (children !! "sub.mp4" = Some (Os.Dir ∅)) as H2 by (vm_compute; reflexivity).
  split_and!; [exact H1|exact H2|reflexivity|..];
    apply (subdirectory_listed static_url fs children ∅ "sub.mp4" H1 H2 eq_refl).
Defined.

Lemma regular_file_in_the_way_witness :
  let fs : filesystem := {[ "static" := Os.Dir {[ "videos" := Os.File [] ]} ]} in
  ((∃ data, fs !! "static" = Some (Os.File data))
   ∨ (∃ (children : filesystem) data,
        fs !! "static" = Some (Os.Dir children)
        ∧ children !! "videos" = Some (Os.File data)))
  ∧ Os.listdir fs VIDEO_DIR = inl (Os.NotADirectoryError VIDEO_DIR)
  ∧ index static_url page fs = (internal_server_error, [])
  ∧ get_videos static_url fs = internal_server_error
  ∧ status internal_server_error = 500.
Proof.
  intros fs.
  assert ((∃ data, fs !! "static" = Some (Os.File data))
   ∨ (∃ (children : filesystem) data,
        fs !! "static" = Some (Os.Dir children)
        ∧ children !! "videos" = Some (Os.File data))) as H.
  { right. exists {[ "videos" := Os.File [] ]}, []. split; reflexivity. }
  split; [exact H|].
  exact (regular_file_in_the_way static_url page fs H).
Defined.

Lemma sorted_filter_any_order_witness :
  ["b.mp4"; "notes.txt"; "a.png"] ≡ₚ ["a.png"; "b.mp4"; "notes.txt"]
  ∧ Py.sorted (filter (λ f, allowed_file f) ["b.mp4"; "notes.txt"; "a.png"]) =
    Py.sorted (filter (λ f, allowed_file f) ["a.png"; "b.mp4"; "notes.txt"]).
Proof.
  assert (["b.mp4"; "notes.txt"; "a.png"] ≡ₚ ["a.png"; "b.mp4"; "notes.txt"]) as H.
  { change (["b.mp4"; "notes.txt"] ++ ["a.png"] ≡ₚ ["a.png"] ++ ["b.mp4"; "notes.txt"]).
    apply Permutation_app_comm. }
  split; [exact H|].
  exact (sorted_filter_any_order _ _ H).
Defined.

(** ** What an upload does to the folder *)

(** X7. Where [os.makedirs(exist_ok=True)] returns for the upload folder,
    the folder is in place with the entries it had (none if it was not
    there), no directory has gained or lost a regular file, and a second
    call returns the same tree, whatever the system would refuse then. *)
Theorem makedirs_idempotent (denied : option string) (fs fs1 : filesystem) :
  Os.makedirs denied fs UPLOAD_FOLDER = inr fs1 →
  Os.dir_at fs1 (Os.resolve UPLOAD_FOLDER) = Some (folder fs)
  ∧ entries fs1 = entries fs
  ∧ (∀ d, Os.files_in fs1 d = Os.files_in fs d)
  ∧ (∀ denied', Os.makedirs denied' fs1 UPLOAD_FOLDER = inr fs1).
Proof.
  intros Hm. split_and!.
  - by apply dir_at_makedirs in Hm.
  - by apply entries_makedirs in Hm.
  - intros d. by apply (files_in_makedirs _ _ _ _ Hm).
  - intros denied'. by apply (mkdirs_again _ _ _ _ _ _ _ Hm).
Qed.

Lemma makedirs_idempotent_witness :
  let fs : filesystem := {[ "static" := Os.Dir {[ "logo.png" := Os.File [] ]} ]} in
  let fs1 : filesystem :=
    {[ "static" := Os.Dir {[ "logo.png" := Os.File []; "videos" := Os.Dir ∅ ]} ]} in
  Os.makedirs None fs UPLOAD_FOLDER = inr fs1
  ∧ Os.dir_at fs1 (Os.resolve UPLOAD_FOLDER) = Some (folder fs)
  ∧ entries fs1 = entries fs
  ∧ (∀ d, Os.files_in fs1 d = Os.files_in fs d)
  ∧ (∀ denied', Os.makedirs denied' fs1 UPLOAD_FOLDER = inr fs1).
Proof.
  intros fs fs1.
  assert (Os.makedirs None fs UPLOAD_FOLDER = inr fs1) as H by (vm_compute; reflexivity).
  split; [exact H|].
  exact (makedirs_idempotent None fs fs1 H).
Defined.

Section UploadEffects.
Variable nfkd_ascii : string → string.

(** A request is either an accepted upload, or refused with the file
    system as it was. *)
Lemma upload_file_cases (files : gmap string FileStorage) (e : env)
    (fs : filesystem) :
  (∃ file, accepted files file)
  ∨ ((upload_file nfkd_ascii files e fs).2 = fs
     ∧ status (upload_file nfkd_ascii files e fs).1 = 200
     ∧ field "success" (upload_file nfkd_ascii files e fs).1 = Some (JBool false)).
Proof.
  destruct (files !! "file") as [file|] eqn:Hf.
  - destruct (decide (filename file = "")) as [Hn|Hn].
    + right. by rewrite (upload_file_empty_name _ _ _ _ _ Hf Hn).
    + destruct (allowed_file (filename file)) eqn:Ha.
      * left. by exists file.
      * right. by rewrite (upload_file_rejected _ _ _ _ _ Hf Hn Ha).
  - right. by rewrite (upload_file_no_file _ _ _ _ Hf).
Qed.

(** X8. No upload removes anything from the gallery: whatever the request,
    the random bytes and the fault of the device, every entry of the media
    directory is still there afterwards, and every listed name is still
    listed. *)
Theorem upload_never_removes (files : gmap string FileStorage) (e : env)
    (fs : filesystem) (n : string) :
  (n ∈ entries fs → n ∈ entries (upload_file nfkd_ascii files e fs).2)
  ∧ (n ∈ listed fs → n ∈ listed (upload_file nfkd_ascii files e fs).2).
Proof.
  assert (n ∈ entries fs → n ∈ entries (upload_file nfkd_ascii files e fs).2) as H.
  { destruct (upload_file_cases files e fs) as [[file Hacc]|[-> _]]; [|done].
    destruct (effect_entries _ _ _ _ _ _ (upload_file_effect nfkd_ascii _ e fs _ Hacc))
      as [-> | ->]; [done|].
    rewrite elem_of_union. by right. }
  split; [done|]. rewrite !elem_of_listed. intros [? ?]. auto.
Qed.

(** X9. An upload adds at most one entry to the media directory: a name
    that is there afterwards was there before, or the request is an
    accepted upload and the name is the one it is stored under. *)
Theorem upload_adds_at_most_one (files : gmap string FileStorage) (e : env)
    (fs : filesystem) (n : string) :
  n ∈ entries (upload_file nfkd_ascii files e fs).2 →
  n ∈ entries fs
  ∨ ∃ file, accepted files file
      ∧ n = Uuid.uuid4 (urandom e) +:+ "_" +:+
            secure_filename nfkd_ascii (filename file).
Proof.
  destruct (upload_file_cases files e fs) as [[file Hacc]|[-> _]]; [|by left].
  destruct (effect_entries _ _ _ _ _ _ (upload_file_effect nfkd_ascii _ e fs _ Hacc))
    as [-> | ->]; [by left|].
  rewrite elem_of_union, elem_of_singleton. intros [->|?]; [|by left].
  right. by exists file.
Qed.

(** X10. The view reports success only for a file it has stored: a
    "success" field that is true means that the request is an accepted
    upload and that the upload folder holds its stream under the token, an
    underscore and the sanitised name. *)
Theorem upload_success_means_stored (files : gmap string FileStorage) (e : env)
    (fs : filesystem) :
  field "success" (upload_file nfkd_ascii files e fs).1 = Some (JBool true) →
  ∃ file, accepted files file
    ∧ Os.files_in (upload_file nfkd_ascii files e fs).2 (Os.resolve UPLOAD_FOLDER)
        !! (Uuid.uuid4 (urandom e) +:+ "_" +:+
            secure_filename nfkd_ascii (filename file))
      = Some (stream file).
Proof.
  destruct (upload_file_cases files e fs) as [[file Hacc]|(_ & _ & Hs)]; [|congruence].
  intros Hok. exists file. split; [done|].
  pose proof (upload_file_effect nfkd_ascii _ e fs _ Hacc) as Heff.
  assert ((upload_file nfkd_ascii files e fs).1 = uploaded) as Hup.
  { by destruct Heff. }
  destruct (effect_success _ _ _ _ _ _ Heff Hup) as (-> & _).
  apply lookup_insert_eq.
Qed.

(** X11. A refused or failed upload leaves no file behind, unless the
    device left one: when the "success" field is false and the fault of the
    device, if any, left nothing at the destination, every directory holds
    the files it held. *)
Theorem failed_upload_leaves_nothing (files : gmap string FileStorage) (e : env)
    (fs : filesystem) :
  field "success" (upload_file nfkd_ascii files e fs).1 = Some (JBool false) →
  (∀ f, fault e = Some f → Os.residue f = None) →
  ∀ d, Os.files_in (upload_file nfkd_ascii files e fs).2 d = Os.files_in fs d.
Proof.
  intros Hs Hres d.
  destruct (upload_file_cases files e fs) as [[file Hacc]|[-> _]]; [|done].
  apply (effect_clean _ _ _ _ _ _ (upload_file_effect nfkd_ascii _ e fs _ Hacc));
    [|done].
  intros Hup. by rewrite Hup in Hs.
Qed.


End UploadEffects.

Lemma upload_adds_at_most_one_witness :
  let e := {| urandom := 5; fault := None; mkdir_fault := None |} in
  let n := Uuid.uuid4 5 +:+ "_clip.mp4" in
  n ∈ entries (upload_file ascii_ignore (upload_of "clip.mp4") e (media ["a.mp4"])).2
  ∧ (n ∈ entries (media ["a.mp4"])
     ∨ ∃ file, accepted (upload_of "clip.mp4") file
         ∧ n = Uuid.uuid4 (urandom e) +:+ "_" +:+
               secure_filename ascii_ignore (filename file)).
Proof.
  intros e n.
  assert (n ∈ entries (upload_file ascii_ignore (upload_of "clip.mp4") e
                         (media ["a.mp4"])).2) as H.
  { refine (bool_decide_unpack _ _). vm_compute. exact I. }
  split; [exact H|].
  exact (upload_adds_at_most_one ascii_ignore (upload_of "clip.mp4") e
           (media ["a.mp4"]) n H).
Defined.

Lemma upload_success_means_stored_witness :
  let e := {| urandom := 5; fault := None; mkdir_fault := None |} in
  let r := upload_file ascii_ignore (upload_of "clip.mp4") e ∅ in
  field "success" r.1 = Some (JBool true)
  ∧ ∃ file, accepted (upload_of "clip.mp4") file
      ∧ Os.files_in r.2 (Os.resolve UPLOAD_FOLDER)
          !! (Uuid.uuid4 (urandom e) +:+ "_" +:+
              secure_filename ascii_ignore (filename file))
        = Some (stream file).
Proof.
  intros e r.
  assert (field "success" r.1 = Some (JBool true)) as H by (vm_compute; reflexivity).
  split; [exact H|].
  exact (upload_success_means_stored ascii_ignore (upload_of "clip.mp4") e ∅ H).
Defined.

Lemma failed_upload_leaves_nothing_witness :
  let e := {| urandom := 5;
              fault := Some {| Os.strerror := "[Errno 13] Permission denied";
                               Os.residue := None |};
              mkdir_fault := None |} in
  let fs := media ["a.mp4"] in
  let r := upload_file ascii_ignore (upload_of "clip.mp4") e fs in
  field "success" r.1 = Some (JBool false)
  ∧ (∀ f, fault e = Some f → Os.residue f = None)
  ∧ ∀ d, Os.files_in r.2 d = Os.files_in fs d.
Proof.
  intros e fs r.
  assert (field "success" r.1 = Some (JBool false)) as H by (vm_compute; reflexivity).
  assert (∀ f, fault e = Some f → Os.residue f = None) as Hf.
  { intros f [= <-]. reflexivity. }
  split; [exact H|]. split; [exact Hf|].
  exact (failed_upload_leaves_nothing ascii_ignore (upload_of "clip.mp4") e fs H Hf).
Defined.

Lemma uploaded_listed_iff_witness :
  let e := {| urandom := 5; fault := None; mkdir_fault := None |} in
  let file := {| filename := "clip.mp4"; stream := [] |} in
  let r := upload_file ascii_ignore (upload_of "clip.mp4") e ∅ in
  accepted (upload_of "clip.mp4") file
  ∧ r.1 = uploaded
  ∧ stored_filename ascii_ignore e file ∈ entries r.2
  ∧ (stored_filename ascii_ignore e file ∈ listed r.2
     ↔ allowed_file (secure_filename ascii_ignore (filename file)) = true).
Proof.
  intros e file r.
  assert (accepted (upload_of "clip.mp4") file)
    as H by (apply accepted_upload_of; [discriminate|reflexivity]).
  assert (r.1 = uploaded) as Hok by (vm_compute; reflexivity).
  split; [exact H|]. split; [exact Hok|].
  exact (uploaded_listed_iff ascii_ignore (upload_of "clip.mp4") e ∅ file H Hok).
Defined.


(** The system refuses to create the folder: status 500, nothing created;
    with the folder in place the same refusal is not met. *)
Example makedirs_denied_example :
  let e := {| urandom := 5; fault := None;
              mkdir_fault := Some "[Errno 13] Permission denied: 'static'" |} in
  upload_file ascii_ignore (upload_of "clip.mp4") e ∅ = (internal_server_error, ∅)
  ∧ (upload_file ascii_ignore (upload_of "clip.mp4") e (media [])).1 = uploaded.
Proof. vm_compute. done. Qed.
(** ** Names that need no sanitising *)

Lemma safe_not_space a :
  Werkzeug.is_safe a = true → Werkzeug.is_space a = false.
Proof. destruct a as [[] [] [] [] [] [] [] []]; by vm_compute. Qed.

Lemma safe_not_sep a :
  Werkzeug.is_safe a = true → Ascii.eqb a "/" = false.
Proof. destruct a as [[] [] [] [] [] [] [] []]; by vm_compute. Qed.

Lemma replace_safe s :
  Py.all Werkzeug.is_safe s = true → Werkzeug.replace "/" " " s = s.
Proof.
  induction s as [|a s IH]; simpl; [done|].
  intros [Ha Hs]%andb_true_iff. by rewrite (safe_not_sep a Ha), IH.
Qed.

Lemma split_safe s :
  Py.all Werkzeug.is_safe s = true → s ≠ "" → Werkzeug.split s = [s].
Proof.
  induction s as [|a s IH]; [done|]. intros [Ha Hs]%andb_true_iff _.
  simpl. rewrite (safe_not_space a Ha). destruct s as [|b s]; [done|].
  apply andb_true_iff in Hs as Hb. destruct Hb as [Hb _].
  rewrite (safe_not_space b Hb). by rewrite IH.
Qed.

Lemma keep_all p s : Py.all p s = true → Werkzeug.keep p s = s.
Proof.
  induction s as [|a s IH]; simpl; [done|].
  intros [Ha Hs]%andb_true_iff. by rewrite Ha, IH.
Qed.

(** A name made of letters, digits, "_", "." and "-" that normalisation
    leaves alone and that neither starts nor ends with a dot or an
    underscore is its own sanitised form. *)
Lemma secure_filename_plain (nfkd_ascii : string → string) name :
  nfkd_ascii name = name → name ≠ "" →
  Py.all Werkzeug.is_safe name = true →
  Werkzeug.strip Werkzeug.dot_or_underscore name = name →
  secure_filename nfkd_ascii name = name.
Proof.
  intros Hn H0 Hsafe Hstrip. unfold secure_filename, Werkzeug.secure_filename.
  rewrite Hn, replace_safe, split_safe by done. simpl.
  by rewrite keep_all.
Qed.



Section Sequences.
Variable nfkd_ascii : string → string.
Variable url_for : string → string → string.
Variable render_template : string → list string → string.

(** After a success the folder is a directory and holds the stored name. *)
Lemma upload_file_stored (files : gmap string FileStorage) (e : env)
    (fs : filesystem) (file : FileStorage) :
  accepted files file →
  (upload_file nfkd_ascii files e fs).1 = uploaded →
  entries (upload_file nfkd_ascii files e fs).2 =
    {[ stored_filename nfkd_ascii e file ]} ∪ entries fs
  ∧ is_Some (Os.dir_at (upload_file nfkd_ascii files e fs).2 (Os.resolve VIDEO_DIR)).
Proof.
  intros Hacc Hok.
  by destruct (effect_success _ _ _ _ _ _
                 (upload_file_effect nfkd_ascii _ e fs _ Hacc) Hok) as (_ & ? & ?).
Qed.

(** X14. An accepted upload of a name that needs no sanitising (letters,
    digits, "_", "." and "-", untouched by normalisation, no dot or
    underscore at either end), once answered as a success, is stored under
    the token, an underscore and the name as the client sent it, and the
    next listing shows it. *)
Theorem plain_name_upload_listed (files : gmap string FileStorage) (e : env)
    (fs : filesystem) (file : FileStorage) :
  accepted files file →
  nfkd_ascii (filename file) = filename file →
  Py.all Werkzeug.is_safe (filename file) = true →
  Werkzeug.strip Werkzeug.dot_or_underscore (filename file) = filename file →
  (upload_file nfkd_ascii files e fs).1 = uploaded →
  let name := Uuid.uuid4 (urandom e) +:+ "_" +:+ filename file in
  let fs' := (upload_file nfkd_ascii files e fs).2 in
  Os.files_in fs' (Os.resolve VIDEO_DIR) !! name = Some (stream file)
  ∧ name ∈ listed fs'
  ∧ get_videos url_for fs' =
      jsonify [("videos", JArray (JString <$>
        ((λ n, url_for "static" ("videos/" +:+ n)) <$> listed fs')))].
Proof.
  intros Hacc Hn Hsafe Hstrip Hok name fs'.
  assert (stored_filename nfkd_ascii e file = name) as Hname.
  { unfold stored_filename. rewrite secure_filename_plain; [done..| |done|done].
    by destruct Hacc as (_ & ? & _). }
  pose proof (upload_file_success nfkd_ascii files e fs file Hacc Hok) as Hin.
  destruct (upload_file_stored files e fs file Hacc Hok) as [Hent Hdir].
  rewrite Hname in Hin, Hent. fold fs' in Hin, Hent, Hdir.
  change (Os.resolve VIDEO_DIR) with (Os.resolve UPLOAD_FOLDER).
  assert (Os.files_in fs' (Os.resolve UPLOAD_FOLDER) !! name = Some (stream file)) as Hl.
  { by rewrite Hin, lookup_insert_eq. }
  split_and!; [done| |by apply get_videos_dir].
  rewrite elem_of_listed. split.
  - rewrite Hent, elem_of_union, elem_of_singleton. by left.
  - rewrite <-Hname, allowed_stored_filename.
    rewrite secure_filename_plain; [by destruct Hacc as (_ & _ & ?)|done| |done|done].
    by destruct Hacc as (_ & ? & _).
Qed.


(** X16. Two accepted uploads answered as successes, made one after the
    other with random bits that differ, are both in the folder afterwards,
    each under its own name with its own stream, whatever the two file
    names. *)
Theorem two_uploads_both_stored (files1 files2 : gmap string FileStorage)
    (e1 e2 : env) (fs : filesystem) (file1 file2 : FileStorage) :
  accepted files1 file1 → accepted files2 file2 →
  Uuid.uuid_int (urandom e1) ≠ Uuid.uuid_int (urandom e2) →
  let r1 := upload_file nfkd_ascii files1 e1 fs in
  let r2 := upload_file nfkd_ascii files2 e2 r1.2 in
  let name1 := Uuid.uuid4 (urandom e1) +:+ "_" +:+
               secure_filename nfkd_ascii (filename file1) in
  let name2 := Uuid.uuid4 (urandom e2) +:+ "_" +:+
               secure_filename nfkd_ascii (filename file2) in
  r1.1 = uploaded → r2.1 = uploaded →
  name1 ≠ name2
  ∧ Os.files_in r2.2 (Os.resolve UPLOAD_FOLDER) !! name1 = Some (stream file1)
  ∧ Os.files_in r2.2 (Os.resolve UPLOAD_FOLDER) !! name2 = Some (stream file2).
Proof.
  intros Hacc1 Hacc2 Hne r1 r2 name1 name2 Hok1 Hok2.
  destruct (stored_filename_fresh nfkd_ascii e2 e1 file2 file1 Hne) as [_ Hn].
  fold name1 name2 in Hn. unfold stored_filename in Hn.
  pose proof (upload_file_success nfkd_ascii files1 e1 fs file1 Hacc1 Hok1) as H1.
  pose proof (upload_file_success nfkd_ascii files2 e2 r1.2 file2 Hacc2 Hok2) as H2.
  unfold stored_filename in H1, H2. fold r1 in H1. fold r2 in H2.
  split_and!; [done|..]; rewrite H2.
  - by rewrite lookup_insert_ne, H1, lookup_insert_eq.
  - by rewrite lookup_insert_eq.
Qed.

(** X17. Nothing guards against a name that is taken: when a second
    accepted upload draws the same random bits and has the same sanitised
    name as a first one, it is stored under the same name and its stream
    replaces the first; the folder has the same entries as after the first
    upload. *)
Theorem colliding_upload_overwrites (files1 files2 : gmap string FileStorage)
    (e1 e2 : env) (fs : filesystem) (file1 file2 : FileStorage) :
  accepted files1 file1 → accepted files2 file2 →
  Uuid.uuid_int (urandom e1) = Uuid.uuid_int (urandom e2) →
  secure_filename nfkd_ascii (filename file1) =
    secure_filename nfkd_ascii (filename file2) →
  let r1 := upload_file nfkd_ascii files1 e1 fs in
  let r2 := upload_file nfkd_ascii files2 e2 r1.2 in
  let name := Uuid.uuid4 (urandom e1) +:+ "_" +:+
              secure_filename nfkd_ascii (filename file1) in
  r1.1 = uploaded → r2.1 = uploaded →
  Os.files_in r2.2 (Os.resolve UPLOAD_FOLDER) =
    <[name := stream file2]> (Os.files_in fs (Os.resolve UPLOAD_FOLDER))
  ∧ entries r2.2 = entries r1.2.
Proof.
  intros Hacc1 Hacc2 Hu Hs r1 r2 name Hok1 Hok2.
  pose proof (upload_file_success nfkd_ascii files1 e1 fs file1 Hacc1 Hok1) as H1.
  pose proof (upload_file_success nfkd_ascii files2 e2 r1.2 file2 Hacc2 Hok2) as H2.
  destruct (upload_file_stored files1 e1 fs file1 Hacc1 Hok1) as [E1 _].
  destruct (upload_file_stored files2 e2 r1.2 file2 Hacc2 Hok2) as [E2 _].
  assert (stored_filename nfkd_ascii e2 file2 = name) as Hn2.
  { unfold stored_filename, name, Uuid.uuid4. by rewrite Hu, Hs. }
  rewrite Hn2 in H2, E2. change (stored_filename nfkd_ascii e1 file1) with name in H1, E1.
  fold r1 in H1, E1, E2. fold r2 in H2, E2.
  split.
  - by rewrite H2, H1, insert_insert_eq.
  - by rewrite E2, E1, (assoc_L (∪)), (idemp_L (∪)).
Qed.
End Sequences.

Lemma plain_name_upload_listed_witness :
  let e := {| urandom := 5; fault := None; mkdir_fault := None |} in
  let file := {| filename := "clip.mp4"; stream := [] |} in
  let name := Uuid.uuid4 (urandom e) +:+ "_" +:+ filename file in
  let fs' := (upload_file ascii_ignore (upload_of "clip.mp4") e ∅).2 in
  accepted (upload_of "clip.mp4") file
  ∧ ascii_ignore (filename file) = filename file
  ∧ Py.all Werkzeug.is_safe (filename file) = true
  ∧ Werkzeug.strip Werkzeug.dot_or_underscore (filename file) = filename file
  ∧ (upload_file ascii_ignore (upload_of "clip.mp4") e ∅).1 = uploaded
  ∧ Os.files_in fs' (Os.resolve VIDEO_DIR) !! name = Some (stream file)
  ∧ name ∈ listed fs'
  ∧ get_videos static_url fs' =
      jsonify [("videos", JArray (JString <$>
        ((λ n, static_url "static" ("videos/" +:+ n)) <$> listed fs')))].
Proof.
  intros e file name fs'.
  assert (accepted (upload_of "clip.mp4") file)
    as H by (apply accepted_upload_of; [discriminate|reflexivity]).
  assert ((upload_file ascii_ignore (upload_of "clip.mp4") e ∅).1 = uploaded)
    as Hok by (vm_compute; reflexivity).
  split_and!; [exact H|reflexivity|reflexivity|reflexivity|exact Hok|..];
    apply (plain_name_upload_listed ascii_ignore static_url
             (upload_of "clip.mp4") e ∅ file H eq_refl eq_refl eq_refl Hok).
Defined.


Lemma two_uploads_both_stored_witness :
  let e1 := {| urandom := 5; fault := None; mkdir_fault := None |} in
  let e2 := {| urandom := 6; fault := None; mkdir_fault := None |} in
  let file := {| filename := "clip.mp4"; stream := [] |} in
  let r1 := upload_file ascii_ignore (upload_of "clip.mp4") e1 ∅ in
  let r2 := upload_file ascii_ignore (upload_of "clip.mp4") e2 r1.2 in
  let name1 := Uuid.uuid4 (urandom e1) +:+ "_" +:+
               secure_filename ascii_ignore (filename file) in
  let name2 := Uuid.uuid4 (urandom e2) +:+ "_" +:+
               secure_filename ascii_ignore (filename file) in
  accepted (upload_of "clip.mp4") file
  ∧ Uuid.uuid_int (urandom e1) ≠ Uuid.uuid_int (urandom e2)
  ∧ r1.1 = uploaded ∧ r2.1 = uploaded
  ∧ name1 ≠ name2
  ∧ Os.files_in r2.2 (Os.resolve UPLOAD_FOLDER) !! name1 = Some (stream file)
  ∧ Os.files_in r2.2 (Os.resolve UPLOAD_FOLDER) !! name2 = Some (stream file).
Proof.
  intros e1 e2 file r1 r2 name1 name2.
  assert (accepted (upload_of "clip.mp4") file)
    as H by (apply accepted_upload_of; [discriminate|reflexivity]).
  assert (Uuid.uuid_int (urandom e1) ≠ Uuid.uuid_int (urandom e2))
    as Hne by (vm_compute; discriminate).
  assert (r1.1 = uploaded) as Hok1 by (vm_compute; reflexivity).
  assert (r2.1 = uploaded) as Hok2 by (vm_compute; reflexivity).
  split_and!; [exact H|exact Hne|exact Hok1|exact Hok2|..];
    apply (two_uploads_both_stored ascii_ignore (upload_of "clip.mp4")
             (upload_of "clip.mp4") e1 e2 ∅ file file H H Hne Hok1 Hok2).
Defined.

Lemma colliding_upload_overwrites_witness :
  let e := {| urandom := 5; fault := None; mkdir_fault := None |} in
  let file1 := {| filename := "clip.mp4"; stream := [Byte.x01] |} in
  let file2 := {| filename := "clip.mp4"; stream := [Byte.x02] |} in
  let files1 : gmap string FileStorage := {[ "file" := file1 ]} in
  let files2 : gmap string FileStorage := {[ "file" := file2 ]} in
  let r1 := upload_file ascii_ignore files1 e ∅ in
  let r2 := upload_file ascii_ignore files2 e r1.2 in
  let name := Uuid.uuid4 (urandom e) +:+ "_" +:+
              secure_filename ascii_ignore (filename file1) in
  accepted files1 file1 ∧ accepted files2 file2
  ∧ r1.1 = uploaded ∧ r2.1 = uploaded
  ∧ Os.files_in r2.2 (Os.resolve UPLOAD_FOLDER) =
      <[name := stream file2]> (Os.files_in ∅ (Os.resolve UPLOAD_FOLDER))
  ∧ entries r2.2 = entries r1.2.
Proof.
  intros e file1 file2 files1 files2 r1 r2 name.
  assert (accepted files1 file1) as H1.
  { split; [apply lookup_singleton_eq|]. split; [discriminate|reflexivity]. }
  assert (accepted files2 file2) as H2.
  { split; [apply lookup_singleton_eq|]. split; [discriminate|reflexivity]. }
  assert (r1.1 = uploaded) as Hok1 by (vm_compute; reflexivity).
  assert (r2.1 = uploaded) as Hok2 by (vm_compute; reflexivity).
  split_and!; [exact H1|exact H2|exact Hok1|exact Hok2|..];
    apply (colliding_upload_overwrites ascii_ignore files1 files2 e e ∅
             file1 file2 H1 H2 eq_refl eq_refl Hok1 Hok2).
Defined.

Theorem stored_name_safe_chars (nfkd_ascii : string → string) (e : env)
    (file : FileStorage) :
  let name := Uuid.uuid4 (urandom e) +:+ "_" +:+
              secure_filename nfkd_ascii (filename file) in
  Py.all Werkzeug.is_safe name = true
  ∧ String.length name =
      37 + String.length (secure_filename nfkd_ascii (filename file))
  ∧ Py.all (λ a, negb (Werkzeug.is_space a) && negb (Ascii.eqb a "/")) name = true.
Proof.
  intros name.
  pose proof (stored_filename_safe nfkd_ascii e file) as Hsafe.
  split_and!; [done|apply stored_filename_length|].
  apply (all_impl Werkzeug.is_safe); [|done].
  intros a Ha. by rewrite (safe_not_space a Ha), (safe_not_sep a Ha).
Qed.
